(** * Conversation history, embedding cache, retrieval and chat flow of the
    personalization gateway (TypeScript sources: utils/conversationHistory,
    utils/embedding, services/qdrant, middleware/rateLimiting,
    controllers/chatController). *)

From Stdlib Require Import ZArith List String Ascii Bool Lia.
Import ListNotations.
Open Scope string_scope.

(** ** JavaScript value helpers *)
Module JS.
Local Open Scope Z_scope.

(** A JS number as the program uses it here: an integral value or NaN. *)
Inductive jsnum := JNum (z : Z) | JNaN.

(** [any f s]: some character of [s] satisfies [f]. *)
Fixpoint str_any (f : ascii -> bool) (s : string) : bool :=
  match s with
  | EmptyString => false
  | String c s' => f c || str_any f s'
  end.

Fixpoint str_all (f : ascii -> bool) (s : string) : bool :=
  match s with
  | EmptyString => true
  | String c s' => f c && str_all f s'
  end.

(** WhiteSpace and LineTerminator code points in the ASCII range
    (TAB, LF, VT, FF, CR, SPACE): what String.prototype.trim removes. *)
Definition is_ws (c : ascii) : bool :=
  let n := nat_of_ascii c in
  (n =? 9)%nat || (n =? 10)%nat || (n =? 11)%nat || (n =? 12)%nat
  || (n =? 13)%nat || (n =? 32)%nat.

Definition is_digit (c : ascii) : bool :=
  let n := nat_of_ascii c in (48 <=? n)%nat && (n <=? 57)%nat.

(** Every character that may occur in a StringNumericLiteral: white space,
    digits, signs, the decimal point, exponent and radix letters, hex digits
    and the letters of [Infinity]. *)
Definition numeric_alphabet : string :=
  "+-.eExXoObBabcdefABCDEFInity".

Definition in_numeric_alphabet (c : ascii) : bool :=
  is_ws c || is_digit c || str_any (Ascii.eqb c) numeric_alphabet.

Fixpoint trim_left (s : string) : string :=
  match s with
  | String c s' => if is_ws c then trim_left s' else s
  | EmptyString => EmptyString
  end.

Fixpoint str_rev (s : string) (acc : string) : string :=
  match s with
  | EmptyString => acc
  | String c s' => str_rev s' (String c acc)
  end.

(** [String.prototype.trim]. *)
Definition trim (s : string) : string :=
  str_rev (trim_left (str_rev (trim_left s) EmptyString)) EmptyString.

Fixpoint digits_value (s : string) (acc : Z) : Z :=
  match s with
  | EmptyString => acc
  | String c s' => digits_value s' (acc * 10 + Z.of_nat (nat_of_ascii c - 48))
  end.

Definition unsigned_value (s : string) : jsnum :=
  if (negb (String.eqb s "")) && str_all is_digit s
  then JNum (digits_value s 0) else JNaN.

(** ToNumber applied to a string.  A string holding a character outside the
    StringNumericLiteral alphabet is NaN; after trimming, the empty string is
    0 and a signed decimal integer is its value.  Fraction, exponent, radix
    and Infinity literals never reach this function in the program and are
    read as NaN here. *)
Definition to_number_str (s : string) : jsnum :=
  if str_any (fun c => negb (in_numeric_alphabet c)) s then JNaN
  else
    match trim s with
    | EmptyString => JNum 0
    | String c rest =>
        if Ascii.eqb c "-"%char then
          match unsigned_value rest with JNum z => JNum (- z) | JNaN => JNaN end
        else if Ascii.eqb c "+"%char then unsigned_value rest
        else unsigned_value (String c rest)
    end.

(** Decimal rendering of a natural number (Number.prototype.toString). *)
Fixpoint digits_of (fuel : nat) (n : N) (acc : string) : string :=
  match fuel with
  | O => acc
  | S fuel' =>
      let d := N.modulo n 10 in
      let acc' := String (ascii_of_N (48 + d)) acc in
      if (n <? 10)%N then acc' else digits_of fuel' (N.div n 10) acc'
  end.

Definition string_of_N (n : N) : string := digits_of 40 n EmptyString.

Definition string_of_nat (n : nat) : string := string_of_N (N.of_nat n).

(** Zero padding used by Date.prototype.toISOString. *)
Fixpoint pad_left (fuel w : nat) (s : string) : string :=
  match fuel with
  | O => s
  | S fuel' => if (String.length s <? w)%nat then pad_left fuel' w (String "0" s) else s
  end.

Definition padZ (w : nat) (z : Z) : string := pad_left w w (string_of_N (Z.to_N z)).

(** Proleptic Gregorian date of a day count since 1970-01-01
    (Hinnant's [civil_from_days]); the result is (year, month, day). *)
Definition civil_from_days (days : Z) : Z * Z * Z :=
  let z := days + 719468 in
  let era := z / 146097 in
  let doe := z - era * 146097 in
  let yoe := (doe - doe / 1460 + doe / 36524 - doe / 146096) / 365 in
  let y := yoe + era * 400 in
  let doy := doe - (365 * yoe + yoe / 4 - yoe / 100) in
  let mp := (5 * doy + 2) / 153 in
  let d := doy - (153 * mp + 2) / 5 + 1 in
  let m := if mp <? 10 then mp + 3 else mp - 9 in
  (if m <=? 2 then y + 1 else y, m, d).

(** [new Date(t).toISOString()] for a time value [t] in milliseconds. *)
Definition to_iso_string (t : Z) : string :=
  let days := t / 86400000 in
  let ms := t mod 86400000 in
  let '(y, mo, d) := civil_from_days days in
  let year :=
    if (0 <=? y) && (y <=? 9999) then padZ 4 y
    else (if y <? 0 then "-" else "+") ++ padZ 6 (Z.abs y) in
  year ++ "-" ++ padZ 2 mo ++ "-" ++ padZ 2 d ++ "T"
  ++ padZ 2 (ms / 3600000) ++ ":" ++ padZ 2 ((ms / 60000) mod 60) ++ ":"
  ++ padZ 2 ((ms / 1000) mod 60) ++ "." ++ padZ 3 (ms mod 1000) ++ "Z".

(** [str_repeat n c]: [c.repeat(n)]. *)
Fixpoint str_repeat (n : nat) (c : ascii) : string :=
  match n with O => EmptyString | S n' => String c (str_repeat n' c) end.

End JS.

(** ** utils/conversationHistory.ts *)
Module History.
Import JS.
Local Open Scope Z_scope.

Inductive Role := User | Assistant | System.

Definition role_str (r : Role) : string :=
  match r with User => "user" | Assistant => "assistant" | System => "system" end.

(** The [timestamp] field as stored: absent, a number (the declared type),
    or a string (what the chat controller writes). *)
Inductive timestamp := TsUndef | TsNum (n : Z) | TsStr (s : string).

Record ConversationMessage := mkMsg {
  role : Role;
  content : string;
  ts : timestamp
}.

(** [!msg.timestamp]. *)
Definition ts_falsy (t : timestamp) : bool :=
  match t with
  | TsUndef => true
  | TsNum n => Z.eqb n 0
  | TsStr s => String.eqb s ""
  end.

(** [msg.timestamp > cutoffTime] with a numeric [cutoffTime]: a string
    operand is converted with ToNumber, and NaN compares false. *)
Definition ts_gt (t : timestamp) (cutoff : Z) : bool :=
  match t with
  | TsUndef => false
  | TsNum n => Z.ltb cutoff n
  | TsStr s => match to_number_str s with JNum n => Z.ltb cutoff n | JNaN => false end
  end.

Definition MAX_HISTORY_TOKENS : Z := 8000.
Definition CHARS_PER_TOKEN : Z := 4.
Definition MAX_HISTORY_CHARS : Z := MAX_HISTORY_TOKENS * CHARS_PER_TOKEN.

(** String lengths are those of ASCII text, where [.length] counts one
    UTF-16 unit per character. *)
Definition str_length (s : string) : Z := Z.of_nat (String.length s).

Definition messageChars (m : ConversationMessage) : Z :=
  str_length (content m) + str_length (role_str (role m)).

(** Body of the loop of [trimConversationHistory]: [rest] is the history
    still to visit, most recent first; [trimmed] is built with [unshift]. *)
Fixpoint trim_loop (rest : list ConversationMessage) (totalChars : Z)
    (trimmed : list ConversationMessage) : list ConversationMessage :=
  match rest with
  | [] => trimmed
  | message :: rest' =>
      let c := messageChars message in
      if MAX_HISTORY_CHARS <? totalChars + c then trimmed
      else trim_loop rest' (totalChars + c) (message :: trimmed)
  end.

Definition trimConversationHistory (history : list ConversationMessage)
    : list ConversationMessage :=
  match history with
  | [] => []
  | _ => trim_loop (rev history) 0 []
  end.

Definition trimByAge (now : Z) (history : list ConversationMessage)
    (hoursToKeep : Z) : list ConversationMessage :=
  let cutoffTime := (now - hoursToKeep * 60 * 60 * 1000)%Z in
  filter (fun msg => if ts_falsy (ts msg) then true else ts_gt (ts msg) cutoffTime)
    history.

(** [history.slice(-count)]: for [count = 0] this is [slice(0)], the whole
    array. *)
Definition slice_neg {A} (l : list A) (count : nat) : list A :=
  match count with
  | O => l
  | S _ => skipn (List.length l - count) l
  end.

Definition trimToLastN (history : list ConversationMessage) (count : nat)
    : list ConversationMessage :=
  if (List.length history <=? count)%nat then history else slice_neg history count.

Definition smartTrimConversationHistory (now : Z)
    (history : list ConversationMessage) (maxMessages : nat) (hoursToKeep : Z)
    : list ConversationMessage :=
  let trimmed := trimByAge now history hoursToKeep in
  let trimmed := trimToLastN trimmed maxMessages in
  trimConversationHistory trimmed.

(** The defaults [maxMessages = 20], [hoursToKeep = 24]. *)
Definition smartTrim (now : Z) (history : list ConversationMessage) :=
  smartTrimConversationHistory now history 20 24.

(** [Math.ceil(text.length / CHARS_PER_TOKEN)]. *)
Definition estimateTokens (text : string) : Z :=
  (str_length text + (CHARS_PER_TOKEN - 1)) / CHARS_PER_TOKEN.

Definition shouldCleanupHistory (history : list ConversationMessage) : bool :=
  let totalChars := fold_left (fun sum msg => sum + str_length (content msg))
                      history 0 in
  (* MAX_HISTORY_CHARS * 0.8 = 25600 *)
  MAX_HISTORY_CHARS * 8 / 10 <? totalChars.

Definition chars_sum (l : list ConversationMessage) : Z :=
  fold_right (fun m acc => messageChars m + acc) 0 l.

(** Spec reading of the third trimming stage: a per-turn token cost
    [estimate(role) + estimate(content)] against [maxHistoryTokens]. *)
Fixpoint spec_token_loop (rest : list ConversationMessage) (total : Z)
    (kept : list ConversationMessage) : list ConversationMessage :=
  match rest with
  | [] => kept
  | m :: rest' =>
      let c := estimateTokens (role_str (role m)) + estimateTokens (content m) in
      if MAX_HISTORY_TOKENS <? total + c then kept
      else spec_token_loop rest' (total + c) (m :: kept)
  end.

Definition spec_token_trim (history : list ConversationMessage) :=
  spec_token_loop (rev history) 0 [].

End History.

(** ** utils/embedding.ts: [EmbeddingCache] *)
Module Cache.
Import JS.
Local Open Scope Z_scope.

(** ToInt32. *)
Definition toInt32 (x : Z) : Z :=
  let m := x mod 2 ^ 32 in if 2 ^ 31 <=? m then m - 2 ^ 32 else m.

(** The loop of [getKey]: [hash = (hash << 5) - hash + char;
    hash = hash & hash]. *)
Fixpoint hash_loop (s : string) (hash : Z) : Z :=
  match s with
  | EmptyString => hash
  | String c s' =>
      let char := Z.of_nat (nat_of_ascii c) in
      let hash := toInt32 (Z.shiftl (toInt32 hash) 5) - hash + char in
      let hash := Z.land (toInt32 hash) (toInt32 hash) in
      hash_loop s' hash
  end.

(** [getKey]: [`emb_${Math.abs(hash)}_${text.length}`]. *)
Definition getKey (text : string) : string :=
  "emb_" ++ string_of_N (Z.abs_N (hash_loop text 0)) ++ "_"
  ++ string_of_nat (String.length text).

Section Store.
Context {V : Type}.

Record CachedEmbedding := mkCached {
  ce_text : string;
  ce_embedding : V;
  ce_timestamp : Z
}.

(** A JS [Map<string, CachedEmbedding>]: its entries in insertion order. *)
Definition JsMap := list (string * CachedEmbedding).

Fixpoint map_get (k : string) (m : JsMap) : option CachedEmbedding :=
  match m with
  | [] => None
  | (k', v) :: m' => if String.eqb k k' then Some v else map_get k m'
  end.

Fixpoint map_delete (k : string) (m : JsMap) : JsMap :=
  match m with
  | [] => []
  | (k', v) :: m' => if String.eqb k k' then m' else (k', v) :: map_delete k m'
  end.

(** [Map.prototype.set]: an existing key keeps its position, a new key goes
    last. *)
Fixpoint map_set (k : string) (v : CachedEmbedding) (m : JsMap) : JsMap :=
  match m with
  | [] => [(k, v)]
  | (k', v') :: m' => if String.eqb k k' then (k, v) :: m' else (k', v') :: map_set k v m'
  end.

(** [this.cache.keys().next().value]. *)
Definition map_first_key (m : JsMap) : option string :=
  match m with [] => None | (k, _) :: _ => Some k end.

Record EmbeddingCache := mkCache {
  cache : JsMap;
  maxSize : nat;
  ttlMs : Z
}.

Definition new_cache (maxSize : nat) (ttlMs : Z) : EmbeddingCache :=
  mkCache [] maxSize ttlMs.

(** The default [new EmbeddingCache()]. *)
Definition default_cache : EmbeddingCache := new_cache 1000 (24 * 60 * 60 * 1000).

(** [get(text)] at time [now] (the value of [Date.now()]). *)
Definition get (now : Z) (text : string) (c : EmbeddingCache)
    : option V * EmbeddingCache :=
  let key := getKey text in
  match map_get key (cache c) with
  | None => (None, c)
  | Some cached =>
      if ttlMs c <? now - ce_timestamp cached
      then (None, mkCache (map_delete key (cache c)) (maxSize c) (ttlMs c))
      else (Some (ce_embedding cached), c)
  end.

(** [set(text, embedding)] at time [now]. *)
Definition set (now : Z) (text : string) (embedding : V) (c : EmbeddingCache)
    : EmbeddingCache :=
  let m :=
    if (maxSize c <=? List.length (cache c))%nat then
      match map_first_key (cache c) with
      | Some firstKey =>
          if negb (String.eqb firstKey "") then map_delete firstKey (cache c) else cache c
      | None => cache c
      end
    else cache c in
  let key := getKey text in
  mkCache (map_set key (mkCached text embedding now) m) (maxSize c) (ttlMs c).

Definition clear (c : EmbeddingCache) : EmbeddingCache :=
  mkCache [] (maxSize c) (ttlMs c).

Inductive CacheOp :=
  | OpGet (now : Z) (text : string)
  | OpSet (now : Z) (text : string) (embedding : V)
  | OpClear.

Definition step (c : EmbeddingCache) (op : CacheOp) : EmbeddingCache :=
  match op with
  | OpGet now text => snd (get now text c)
  | OpSet now text e => set now text e c
  | OpClear => clear c
  end.

Definition run (c : EmbeddingCache) (ops : list CacheOp) : EmbeddingCache :=
  fold_left step ops c.

End Store.
Arguments CachedEmbedding : clear implicits.
Arguments JsMap : clear implicits.
Arguments EmbeddingCache : clear implicits.
Arguments CacheOp : clear implicits.

End Cache.

(** ** Request handling: services/qdrant.ts, middleware/rateLimiting.ts,
    controllers/chatController.ts *)
Module Chat.
Import JS History.
Local Open Scope Z_scope.

Inductive Result (A : Type) := Ok (a : A) | Err (e : string).
Arguments Ok {A} a.
Arguments Err {A} e.

(** A Qdrant filter [{ must: [{ key, match: { value } }, ...] }]. *)
Definition Filter := list (string * string).

(** A raw Qdrant hit: id, score and payload (string-valued fields). *)
Record RawHit := mkHit { hit_id : string; hit_score : Z; hit_payload : list (string * string) }.

Record SearchResult := mkResult {
  sr_id : string;
  sr_score : Z;
  sr_text : string;
  sr_metadata : list (string * string)
}.

Record ValidationError := mkVErr { field : string; verr_message : string }.

(** The response body kinds the handlers send. *)
Inductive Body :=
  | BodyValidation (details : list ValidationError)   (* status 400 *)
  | BodyChat (response message : string)
  | BodyError (status : Z) (error : string).

(** Observable effects of a request, in program order. *)
Inductive Event :=
  | EvLoadUserDetail (user : string)
  | EvGetCollections
  | EvCreateCollection
  | EvEmbed (text : string)                              (* EmbeddingBackend call *)
  | EvVectorSearch (vector : list Z) (limit : Z) (filter : option Filter)
  | EvLlmChat (messages : list ConversationMessage)
  | EvLlmStream (messages : list ConversationMessage)
  | EvSetHeaders                                         (* SSE headers set *)
  | EvSseChunk (chunk : string)                          (* data: {chunk} *)
  | EvSseDone                                            (* data: {done: true} *)
  | EvSseError (error : string)                          (* data: {error} *)
  | EvEnd                                                (* res.end() *)
  | EvUpdateHistory (user : string) (history : list ConversationMessage)
  | EvJson (body : Body).

(** Writer and exception monad: a result and the events emitted. *)
Definition M (A : Type) := (Result A * list Event)%type.

Definition ret {A} (a : A) : M A := (Ok a, []).

Definition bind {A B} (m : M A) (f : A -> M B) : M B :=
  match m with
  | (Ok a, evs) => let '(r, evs') := f a in (r, (evs ++ evs')%list)
  | (Err e, evs) => (Err e, evs)
  end.

Definition throw {A} (e : string) : M A := (Err e, []).

Definition lift {A} (r : Result A) : M A := (r, []).

Definition emit (e : Event) : M unit := (Ok tt, [e]).

(** [try { m } catch (e) { h }]; the handler also sees the events of the
    [try] block (to decide [res.headersSent]). *)
Definition try_catch {A} (m : M A) (h : string -> list Event -> M A) : M A :=
  match m with
  | (Err e, evs) => let '(r, evs') := h e evs in (r, (evs ++ evs')%list)
  | ok => ok
  end.

Local Notation "x <- m ;; k" := (bind m (fun x => k)) (at level 61, m at next level, right associativity).
Local Notation "m ;;; k" := (bind m (fun _ => k)) (at level 61, right associativity).

(** The outside world of one request: stored profile, configuration and the
    outcome of every backend call.  Database calls succeed. *)
Record World := mkWorld {
  w_now : Z;                                   (* Date.now() / new Date() *)
  w_debug : bool;                              (* STREAM_DEBUG_MODE === "true" *)
  w_system_prompt : string;                    (* buildSystemPrompt(userDetail) *)
  w_history : list ConversationMessage;        (* conversation_history *)
  w_llm_init : Result unit;                    (* new LLMService(llmConfig) *)
  w_llm_chat : list ConversationMessage -> Result string;
  (* chunks yielded by llmService.chatStream, then an error if it fails *)
  w_llm_stream : list ConversationMessage -> list string * option string;
  w_qdrant_init : Result unit;                 (* getQdrantService() *)
  w_get_collections : Result bool;             (* does the collection exist *)
  w_create_collection : Result unit;
  w_embed : string -> Result (list Z);         (* EmbeddingService.embed *)
  w_search : list Z -> Z -> option Filter -> Result (list RawHit)
}.

(** The request body after destructuring with its defaults
    ([auto_retrieve = true], [retrieve_limit = 3]); [None] is an omitted
    [context]. *)
Record Request := mkRequest {
  user_id : string;
  message : string;
  context : option (list string);
  auto_retrieve : bool;
  retrieve_limit : Z
}.

(** *** services/qdrant.ts *)

Definition ensureCollection (w : World) : M unit :=
  emit EvGetCollections;;;
  exists_ <- lift (w_get_collections w);;
  if exists_ then ret tt
  else emit EvCreateCollection;;; lift (w_create_collection w).

Fixpoint payload_get (k : string) (p : list (string * string)) : option string :=
  match p with
  | [] => None
  | (k', v) :: p' => if String.eqb k k' then Some v else payload_get k p'
  end.

(** [(result.payload?.text as string) || ""]. *)
Definition format_hit (h : RawHit) : SearchResult :=
  mkResult (hit_id h) (hit_score h)
    (match payload_get "text" (hit_payload h) with Some t => t | None => "" end)
    (hit_payload h).

Definition search (w : World) (query : string) (limit : Z) (filter : option Filter)
    : M (list SearchResult) :=
  ensureCollection w;;;
  emit (EvEmbed query);;;
  queryEmbedding <- lift (w_embed w query);;
  emit (EvVectorSearch queryEmbedding limit filter);;;
  results <- lift (w_search w queryEmbedding limit filter);;
  ret (map format_hit results).

Definition user_filter (userId : string) : Filter := [("user_id", userId)].

Definition searchByUser (w : World) (query userId : string) (limit : Z)
    : M (list SearchResult) :=
  search w query limit (Some (user_filter userId)).

(** *** middleware/rateLimiting.ts *)

Definition validateContextArray (context : option (list string)) : list ValidationError :=
  match context with
  | None => [mkVErr "context" "context must be an array"]
  | Some items =>
      ((if (10 <? List.length items)%nat
       then [mkVErr "context" ("context array too large (max 10 items, got "
                               ++ string_of_nat (List.length items) ++ ")")]
       else [])
      ++ List.concat (List.map (fun '(index, item) =>
            if (5000 <? String.length item)%nat
            then [mkVErr ("context[" ++ string_of_nat index ++ "]")
                    ("context item too large (max 5000 chars, got "
                     ++ string_of_nat (String.length item) ++ ")")]
            else []) (combine (seq 0 (List.length items)) items)))%list
  end.

Definition validateMessage (message : string) : list ValidationError :=
  ((if String.eqb (trim message) "" then [mkVErr "message" "message cannot be empty"]
   else [])
  ++ (if (10000 <? String.length message)%nat
      then [mkVErr "message" ("message too long (max 10000 chars, got "
                              ++ string_of_nat (String.length message) ++ ")")]
      else []))%list.

(** The two checks at the top of both handlers: the message errors if any,
    else the context errors. *)
Definition validate (req : Request) : list ValidationError :=
  match validateMessage (message req) with
  | [] => validateContextArray (context req)
  | errs => errs
  end.

(** *** controllers/chatController.ts *)

Fixpoint join (sep : string) (l : list string) : string :=
  match l with
  | [] => ""
  | [x] => x
  | x :: l' => x ++ sep ++ join sep l'
  end.

(** The body of the auto-retrieve [try] block. *)
Definition retrieval_block (w : World) (req : Request) : M (list string) :=
  lift (w_qdrant_init w);;;
  results <- searchByUser w (message req) (user_id req) (retrieve_limit req);;
  ret (map sr_text results).

(** The auto-retrieve block, with its [catch] that continues without RAG. *)
Definition retrieve_docs (w : World) (req : Request) : M (list string) :=
  if auto_retrieve req then try_catch (retrieval_block w req) (fun _ _ => ret [])
  else ret [].

(** Lines shared by [chat] and [chatStream] after validation: load the
    profile, build the LLM service, the history window and the prompt.
    Returns [recentHistory] and the prompt [messages]. *)
Definition prepare (w : World) (req : Request)
    : M (list ConversationMessage * list ConversationMessage) :=
  emit (EvLoadUserDetail (user_id req));;;
  lift (w_llm_init w);;;
  let history := w_history w in
  let history := if shouldCleanupHistory history
                 then smartTrim (w_now w) history else history in
  let recentHistory := slice_neg history 10 in
  let messages := mkMsg System (w_system_prompt w) TsUndef :: recentHistory in
  retrievedDocs <- retrieve_docs w req;;
  let allContext := ((match context req with Some c => c | None => [] end)
                     ++ retrievedDocs)%list in
  let messages := match allContext with
                  | [] => messages
                  | _ => (messages ++ [mkMsg System ("Relevant context:
" ++ join "

" allContext) TsUndef])%list
                  end in
  let messages := (messages ++ [mkMsg User (message req) TsUndef])%list in
  ret (recentHistory, messages).

(** The two new turns, stamped with [new Date().toISOString()]. *)
Definition new_turns (now : Z) (message response : string) : list ConversationMessage :=
  [mkMsg User message (TsStr (to_iso_string now));
   mkMsg Assistant response (TsStr (to_iso_string now))].

Definition debug_response : string :=
  "This is a debug response. The chat endpoint is working correctly. " ++
  "Debug mode is enabled via STREAM_DEBUG_MODE env variable. " ++
  "No actual LLM API calls are made in debug mode. " ++
  "Perfect for development and testing!".

(** [error.message || fallback]. *)
Definition message_or (e fallback : string) : string :=
  if String.eqb e "" then fallback else e.

Definition chat (w : World) (req : Request) : M unit :=
  try_catch
    (match validate req with
     | (_ :: _) as errs => emit (EvJson (BodyValidation errs))
     | [] =>
         p <- prepare w req;;
         let '(recentHistory, messages) := p in
         response <- (if w_debug w then ret debug_response
                      else emit (EvLlmChat messages);;; lift (w_llm_chat w messages));;
         let updatedHistory := (recentHistory ++ new_turns (w_now w) (message req) response)%list in
         let updatedHistory := smartTrim (w_now w) updatedHistory in
         emit (EvUpdateHistory (user_id req) updatedHistory);;;
         emit (EvJson (BodyChat response (message req)))
     end)
    (fun e _ => emit (EvJson (BodyError 500 (message_or e "chat failed")))).

Definition debugTexts : list string :=
  ["This is a debug response. "; "Streaming is working correctly. ";
   "The SSE connection is established. "; "Each chunk appears with a small delay. ";
   "You can test the frontend streaming UI with this. ";
   "Debug mode is enabled via STREAM_DEBUG_MODE env variable. ";
   "This helps you verify the streaming functionality. ";
   "No actual LLM API calls are made in debug mode. ";
   "Perfect for development and testing! "].

(** [for (const chunk of ...) { fullResponse += chunk; res.write(...) }]. *)
Fixpoint write_chunks (chunks : list string) (fullResponse : string) : M string :=
  match chunks with
  | [] => ret fullResponse
  | chunk :: rest => emit (EvSseChunk chunk);;; write_chunks rest (fullResponse ++ chunk)
  end.

(** Iterating [llmService.chatStream(messages)]: the chunks it yields, then
    its failure if any. *)
Definition stream_llm (w : World) (messages : list ConversationMessage) : M string :=
  emit (EvLlmStream messages);;;
  let '(chunks, failure) := w_llm_stream w messages in
  fullResponse <- write_chunks chunks "";;
  match failure with
  | Some e => throw e
  | None => ret fullResponse
  end.

Definition is_response_write (e : Event) : bool :=
  match e with
  | EvSseChunk _ | EvSseDone | EvSseError _ | EvEnd | EvJson _ => true
  | _ => false
  end.

Definition chatStream (w : World) (req : Request) : M unit :=
  try_catch
    (match validate req with
     | (_ :: _) as errs => emit (EvJson (BodyValidation errs))
     | [] =>
         p <- prepare w req;;
         let '(recentHistory, messages) := p in
         emit EvSetHeaders;;;
         try_catch
           (fullResponse <- (if w_debug w then write_chunks debugTexts ""
                             else stream_llm w messages);;
            emit EvSseDone;;;
            emit EvEnd;;;
            let updatedHistory :=
              (recentHistory ++ new_turns (w_now w) (message req) fullResponse)%list in
            let updatedHistory := smartTrim (w_now w) updatedHistory in
            emit (EvUpdateHistory (user_id req) updatedHistory))
           (fun streamError _ => emit (EvSseError streamError);;; emit EvEnd)
     end)
    (fun e evs =>
       if negb (existsb is_response_write evs)      (* !res.headersSent *)
       then emit (EvJson (BodyError 500 (message_or e "chat stream failed")))
       else emit (EvSseError e);;; emit EvEnd).

(** The history written by a request's [UserDetail.update], if any. *)
Fixpoint persisted (evs : list Event) : option (list ConversationMessage) :=
  match evs with
  | [] => None
  | EvUpdateHistory _ h :: _ => Some h
  | _ :: evs' => persisted evs'
  end.

Definition is_update (e : Event) : bool :=
  match e with EvUpdateHistory _ _ => true | _ => false end.

Definition is_embed (e : Event) : bool :=
  match e with EvEmbed _ => true | _ => false end.

(** Calls made by the retrieval step. *)
Definition is_retrieval_event (e : Event) : bool :=
  match e with
  | EvGetCollections | EvCreateCollection | EvEmbed _ | EvVectorSearch _ _ _ => true
  | _ => false
  end.

(** Events that neither write to the response nor persist history. *)
Definition quiet (e : Event) : bool := negb (is_response_write e) && negb (is_update e).

(** The same request with [auto_retrieve = false]. *)
Definition no_rag (req : Request) : Request :=
  mkRequest (user_id req) (message req) (context req) false (retrieve_limit req).

(** The history window of a request: [history.slice(-10)] after the
    proactive cleanup. *)
Definition recent_window (w : World) : list ConversationMessage :=
  slice_neg (if shouldCleanupHistory (w_history w)
             then smartTrim (w_now w) (w_history w) else w_history w) 10.

End Chat.

(** ** middleware/rateLimiting.ts and controllers/chatController.ts:
    [generateEmbedding] and its validators *)
Module EmbedApi.
Import JS Chat.
Local Open Scope Z_scope.

(** A field of a JSON request body: absent, [false] or [true], a string, an
    array of strings, or any other value (a number, [null], an object) with
    its truthiness.  Arrays holding non-strings are not represented. *)
Inductive value :=
  | VUndef
  | VBool (b : bool)
  | VStr (s : string)
  | VStrs (l : list string)
  | VOther (truthy : bool).

Definition truthy (v : value) : bool :=
  match v with
  | VUndef => false
  | VBool b => b
  | VStr s => negb (String.eqb s "")
  | VStrs _ => true
  | VOther b => b
  end.

Definition validateEmbeddingText (text : value) : list ValidationError :=
  match text with
  | VStr text =>
      ((if String.eqb (trim text) "" then [mkVErr "text" "text cannot be empty"] else [])
      ++ (if (10000 <? String.length text)%nat
          then [mkVErr "text" ("text too long (max 10000 chars, got "
                               ++ string_of_nat (String.length text) ++ ")")]
          else []))%list
  | _ => [mkVErr "text" "text must be a string"]
  end.

Definition validateEmbeddingBatch (texts : value) : list ValidationError :=
  match texts with
  | VStrs texts =>
      ((if (List.length texts =? 0)%nat
        then [mkVErr "texts" "texts array cannot be empty"] else [])
      ++ (if (100 <? List.length texts)%nat
          then [mkVErr "texts" ("too many texts (max 100, got "
                                ++ string_of_nat (List.length texts) ++ ")")]
          else [])
      ++ List.concat (List.map (fun '(index, item) =>
            if (10000 <? String.length item)%nat
            then [mkVErr ("texts[" ++ string_of_nat index ++ "]")
                    ("text too long (max 10000 chars, got "
                     ++ string_of_nat (String.length item) ++ ")")]
            else []) (combine (seq 0 (List.length texts)) texts)))%list
  | _ => [mkVErr "texts" "texts must be an array"]
  end.

(** The body of [POST /embed]: [{ text, texts, use_cache }]. *)
Record EmbedRequest := mkEmbedRequest {
  e_user : string;
  e_text : value;
  e_texts : value;
  e_use_cache : value
}.

(** [use_cache !== false]. *)
Definition cache_enabled (v : value) : bool :=
  match v with VBool false => false | _ => true end.

Inductive EmbedBody :=
  | EBValidation (details : list ValidationError)               (* status 400 *)
  | EBError (error : string)
  | EBEmbedding (embedding : list Z)
  | EBEmbeddings (embeddings : list (list Z)) (count : nat) (cached : bool).

Inductive EmbedEvent :=
  | EELoadUserDetail (user : string)
  | EEEmbed (text : string)                    (* EmbeddingService.embed *)
  | EERespond (status : Z) (body : EmbedBody).

(** The outside world of one [/embed] request.  [ew_now] is the value of
    [Date.now()] during the request; [ew_service_init] is the outcome of
    [new EmbeddingService(config)]; [ew_normalize] is [normalizeEmbedding]
    on the backend's floating-point vector. *)
Record EmbedWorld := mkEmbedWorld {
  ew_now : Z;
  ew_service_init : Result unit;
  ew_embed : string -> Result (list Z);
  ew_normalize : list Z -> list Z
}.

Definition ECache := Cache.EmbeddingCache (list Z).

(** The global embedding cache is module state shared by all requests: a
    state, writer and exception monad over it. *)
Definition SM (A : Type) := ECache -> (Result A * list EmbedEvent * ECache)%type.

Definition sret {A} (a : A) : SM A := fun c => (Ok a, [], c).

Definition sbind {A B} (m : SM A) (f : A -> SM B) : SM B :=
  fun c =>
    match m c with
    | (Ok a, evs, c') => let '(r, evs', c'') := f a c' in (r, (evs ++ evs')%list, c'')
    | (Err e, evs, c') => (Err e, evs, c')
    end.

Definition slift {A} (r : Result A) : SM A := fun c => (r, [], c).

Definition semit (e : EmbedEvent) : SM unit := fun c => (Ok tt, [e], c).

(** [try { m } catch (e) { h }]; the cache keeps what [m] did to it. *)
Definition stry {A} (m : SM A) (h : string -> SM A) : SM A :=
  fun c =>
    match m c with
    | (Err e, evs, c') => let '(r, evs', c'') := h e c' in (r, (evs ++ evs')%list, c'')
    | ok => ok
    end.

Definition cache_get (now : Z) (text : string) : SM (option (list Z)) :=
  fun c => let '(r, c') := Cache.get now text c in (Ok r, [], c').

Definition cache_set (now : Z) (text : string) (e : list Z) : SM unit :=
  fun c => (Ok tt, [], Cache.set now text e c).

Local Notation "x <- m ;; k" := (sbind m (fun x => k)) (at level 61, m at next level, right associativity).
Local Notation "m ;;; k" := (sbind m (fun _ => k)) (at level 61, right associativity).

(** One text: [let embedding = cache?.get(text) || null; if (!embedding)
    { embed; normalize; cache?.set(text, embedding) }].  An array is
    truthy, so every cached vector counts as a hit. *)
Definition embed_one (w : EmbedWorld) (cacheOn : bool) (text : string) : SM (list Z) :=
  cached <- (if cacheOn then cache_get (ew_now w) text else sret None);;
  match cached with
  | Some embedding => sret embedding
  | None =>
      semit (EEEmbed text);;;
      embedding <- slift (ew_embed w text);;
      let embedding := ew_normalize w embedding in
      (if cacheOn then cache_set (ew_now w) text embedding else sret tt);;;
      sret embedding
  end.

(** [for (const t of texts) { ...; embeddings.push(emb) }]. *)
Fixpoint embed_all (w : EmbedWorld) (cacheOn : bool) (texts : list string)
    : SM (list (list Z)) :=
  match texts with
  | [] => sret []
  | t :: rest =>
      emb <- embed_one w cacheOn t;;
      embs <- embed_all w cacheOn rest;;
      sret (emb :: embs)
  end.

(** After validation: load the profile, build the embedding service and
    answer from the cache or the backend. *)
Definition embed_body (w : EmbedWorld) (req : EmbedRequest) : SM unit :=
  semit (EELoadUserDetail (e_user req));;;
  slift (ew_service_init w);;;
  let cacheOn := cache_enabled (e_use_cache req) in
  if truthy (e_text req) then
    match e_text req with
    | VStr text =>
        embedding <- embed_one w cacheOn text;;
        semit (EERespond 200 (EBEmbedding embedding))
    | _ => sret tt     (* validateEmbeddingText rejected every non-string *)
    end
  else
    match e_texts req with
    | VStrs texts =>
        embeddings <- embed_all w cacheOn texts;;
        semit (EERespond 200 (EBEmbeddings embeddings (List.length embeddings) cacheOn))
    | _ => sret tt     (* validateEmbeddingBatch rejected every non-array *)
    end.

Definition generateEmbedding (w : EmbedWorld) (req : EmbedRequest) : SM unit :=
  stry
    (if truthy (e_text req) then
       match validateEmbeddingText (e_text req) with
       | (_ :: _) as errs => semit (EERespond 400 (EBValidation errs))
       | [] => embed_body w req
       end
     else if truthy (e_texts req) then
       match validateEmbeddingBatch (e_texts req) with
       | (_ :: _) as errs => semit (EERespond 400 (EBValidation errs))
       | [] => embed_body w req
       end
     else semit (EERespond 400 (EBError "text or texts array is required")))
    (fun e => semit (EERespond 500 (EBError (message_or e "embedding failed")))).

Definition is_backend_embed (e : EmbedEvent) : bool :=
  match e with EEEmbed _ => true | _ => false end.

(** The body of the response a request sent, if any. *)
Fixpoint response (evs : list EmbedEvent) : option (Z * EmbedBody) :=
  match evs with
  | [] => None
  | EERespond s b :: _ => Some (s, b)
  | _ :: evs' => response evs'
  end.

End EmbedApi.

(** ** controllers/chatController.ts: the document endpoints, and the
    [QdrantService] methods they call (services/qdrant.ts) *)
Module Docs.
Import JS Chat.
Local Open Scope Z_scope.

(** JSON values, with integral numbers. *)
Inductive json :=
  | JNull
  | JBool (b : bool)
  | JNumber (z : Z)
  | JString (s : string)
  | JArray (l : list json)
  | JObject (o : list (string * json)).

(** A JS object: its own properties in creation order.  (JS enumerates
    integer-like keys first; no property below depends on the order.) *)
Definition obj := list (string * json).

(** Truthiness of a property read, [None] being [undefined]. *)
Definition truthy (v : option json) : bool :=
  match v with
  | None | Some JNull => false
  | Some (JBool b) => b
  | Some (JNumber z) => negb (z =? 0)
  | Some (JString s) => negb (String.eqb s "")
  | Some (JArray _) | Some (JObject _) => true
  end.

Fixpoint obj_get (k : string) (o : obj) : option json :=
  match o with
  | [] => None
  | (k', v) :: o' => if String.eqb k k' then Some v else obj_get k o'
  end.

(** Assigning a property: an existing key keeps its place. *)
Fixpoint obj_set (k : string) (v : json) (o : obj) : obj :=
  match o with
  | [] => [(k, v)]
  | (k', v') :: o' => if String.eqb k k' then (k, v) :: o' else (k', v') :: obj_set k v o'
  end.

(** Copying the properties of [src] onto [target], in order. *)
Definition obj_assign (target src : obj) : obj :=
  fold_left (fun o kv => obj_set (fst kv) (snd kv) o) src target.

Fixpoint indexed {A} (i : nat) (l : list A) : list (string * A) :=
  match l with
  | [] => []
  | x :: l' => (string_of_nat i, x) :: indexed (S i) l'
  end.

(** The own enumerable properties [...v] copies in an object literal. *)
Definition own_props (v : option json) : obj :=
  match v with
  | None | Some JNull | Some (JBool _) | Some (JNumber _) => []
  | Some (JString s) => indexed 0 (map (fun c => JString (String c EmptyString)) (list_ascii_of_string s))
  | Some (JArray l) => indexed 0 l
  | Some (JObject o) => o
  end.

(** [v.k] on a parsed JSON value: [null] throws, other primitives and
    arrays have no such own data property here. *)
Definition member (v : json) (k : string) : Result (option json) :=
  match v with
  | JNull => Err ("Cannot read properties of null (reading '" ++ k ++ "')")
  | JObject o => Ok (obj_get k o)
  | _ => Ok None
  end.

(** [`${n}`] for the non-negative integer [Date.now()]. *)
Definition num_string (n : Z) : string := string_of_N (Z.to_N n).






Record Point := mkPoint { pt_id : json; pt_vector : option (list Z); pt_payload : obj }.

(** A point returned by Qdrant's search, retrieve or scroll. *)
Record Hit := mkHit { h_id : json; h_score : Z; h_payload : option obj }.

Inductive DocEvent :=
  | DGetCollections
  | DCreateCollection
  | DEmbed (text : json)                            (* EmbeddingService.embed *)
  | DEmbedBatch (texts : list (option json))        (* EmbeddingService.embedBatch *)
  | DUpsert (points : list Point)
  | DSearch (vector : list Z) (limit : json) (filter : option Filter)
  | DDeletePoints (ids : list json)
  | DDeleteByFilter (filter : Filter)
  | DRetrieve (ids : list json)
  | DScroll (filter : option Filter) (limit offset : Z)
  | DCount (filter : option Filter)
  | DRespond (status : Z) (body : obj).

(** The outside world of one request: the outcome of each Qdrant or
    embedding call, and the clock ([Date.now()], [new Date()]) while the
    [index]-th document of the request is prepared; the clock reads of one
    document are taken in the same millisecond. *)
Record DocWorld := mkDocWorld {
  dw_now : nat -> Z;
  dw_qdrant_init : Result unit;                 (* getQdrantService() *)
  dw_get_collections : Result bool;
  dw_create_collection : Result unit;
  dw_embed : json -> Result (list Z);
  dw_embed_batch : list (option json) -> Result (list (list Z));
  dw_upsert : list Point -> Result unit;
  dw_search : list Z -> json -> option Filter -> Result (list Hit);
  dw_delete : Result unit;
  dw_retrieve : list json -> Result (list Hit);
  dw_scroll : option Filter -> Z -> Z -> Result (list Hit);
  dw_count : option Filter -> Result Z
}.

Definition DM (A : Type) := (Result A * list DocEvent)%type.

Definition dret {A} (a : A) : DM A := (Ok a, []).

Definition dbind {A B} (m : DM A) (f : A -> DM B) : DM B :=
  match m with
  | (Ok a, evs) => let '(r, evs') := f a in (r, (evs ++ evs')%list)
  | (Err e, evs) => (Err e, evs)
  end.

Definition dlift {A} (r : Result A) : DM A := (r, []).

Definition demit (e : DocEvent) : DM unit := (Ok tt, [e]).

Definition dtry {A} (m : DM A) (h : string -> DM A) : DM A :=
  match m with
  | (Err e, evs) => let '(r, evs') := h e in (r, (evs ++ evs')%list)
  | ok => ok
  end.

Local Notation "x <- m ;; k" := (dbind m (fun x => k)) (at level 61, m at next level, right associativity).
Local Notation "m ;;; k" := (dbind m (fun _ => k)) (at level 61, right associativity).

Definition respond (status : Z) (body : obj) : DM unit := demit (DRespond status body).

(** *** QdrantService *)

Definition ensureCollection (w : DocWorld) : DM unit :=
  demit DGetCollections;;;
  exists_ <- dlift (dw_get_collections w);;
  if exists_ then dret tt
  else demit DCreateCollection;;; dlift (dw_create_collection w).

(** [{ ...metadata, text }]. *)
Definition single_payload (text : json) (metadata : option json) : obj :=
  obj_set "text" text (obj_assign [] (own_props metadata)).

Definition storeDocument (w : DocWorld) (id text : json) (metadata : option json) : DM unit :=
  ensureCollection w;;;
  demit (DEmbed text);;;
  embedding <- dlift (dw_embed w text);;
  let points := [mkPoint id (Some embedding) (single_payload text metadata)] in
  demit (DUpsert points);;;
  dlift (dw_upsert w points).

Record BatchDoc := mkBatchDoc { bd_id : json; bd_text : option json; bd_metadata : option json }.

(** [{ text: doc.text, ...doc.metadata }]; an undefined [text] is left out
    of the JSON sent to Qdrant. *)
Definition batch_payload (text : option json) (metadata : option json) : obj :=
  obj_assign (match text with Some t => [("text", t)] | None => [] end) (own_props metadata).

Fixpoint batch_points (docs : list BatchDoc) (embeddings : list (list Z)) (index : nat)
    : list Point :=
  match docs with
  | [] => []
  | doc :: docs' =>
      mkPoint (bd_id doc) (nth_error embeddings index) (batch_payload (bd_text doc) (bd_metadata doc))
      :: batch_points docs' embeddings (S index)
  end.

Definition storeBatch (w : DocWorld) (documents : list BatchDoc) : DM unit :=
  ensureCollection w;;;
  let texts := map bd_text documents in
  demit (DEmbedBatch texts);;;
  embeddings <- dlift (dw_embed_batch w texts);;
  let points := batch_points documents embeddings 0 in
  demit (DUpsert points);;;
  dlift (dw_upsert w points).

(** [(payload?.text as string) || ""]. *)
Definition hit_text (h : Hit) : json :=
  let t := match h_payload h with Some p => obj_get "text" p | None => None end in
  match t with Some v => if truthy (Some v) then v else JString "" | None => JString "" end.

(** [{ id, score, text, metadata: payload }]; an undefined payload is left
    out of the JSON response. *)
Definition format_hit (score : Z) (h : Hit) : obj :=
  ([("id", h_id h); ("score", JNumber score); ("text", hit_text h)]
  ++ match h_payload h with Some p => [("metadata", JObject p)] | None => [] end)%list.

Definition search (w : DocWorld) (query limit : json) (filter : option Filter) : DM (list obj) :=
  ensureCollection w;;;
  demit (DEmbed query);;;
  queryEmbedding <- dlift (dw_embed w query);;
  demit (DSearch queryEmbedding limit filter);;;
  results <- dlift (dw_search w queryEmbedding limit filter);;
  dret (map (fun h => format_hit (h_score h) h) results).

Definition searchByUser (w : DocWorld) (query : json) (userId : string) (limit : json)
    : DM (list obj) :=
  search w query limit (Some (user_filter userId)).

Definition deleteDocument (w : DocWorld) (id : json) : DM unit :=
  demit (DDeletePoints [id]);;; dlift (dw_delete w).

Definition deleteByUser (w : DocWorld) (userId : string) : DM unit :=
  demit (DDeleteByFilter (user_filter userId));;; dlift (dw_delete w).





(** *** The document controllers; [body] is [req.body]. *)

Definition storeDocument_ctl (w : DocWorld) (userId : string) (body : obj) : DM unit :=
  dtry
    (let id := obj_get "id" body in
     let text := obj_get "text" body in
     let metadata := match obj_get "metadata" body with
                     | None => Some (JObject [])         (* metadata = {} *)
                     | m => m
                     end in
     match text with
     | Some text =>
         if truthy (Some text) then
           dlift (dw_qdrant_init w);;;
           let docMetadata :=
             obj_set "created_at" (JString (to_iso_string (dw_now w 0)))
               (obj_set "user_id" (JString userId) (obj_assign [] (own_props metadata))) in
           let docId := match id with
                        | Some v => if truthy (Some v) then v
                                    else JString (userId ++ "_" ++ num_string (dw_now w 0))
                        | None => JString (userId ++ "_" ++ num_string (dw_now w 0))
                        end in
           storeDocument w docId text (Some (JObject docMetadata));;;
           respond 201 [("message", JString "document stored successfully"); ("id", docId)]
         else respond 400 [("error", JString "text is required")]
     | None => respond 400 [("error", JString "text is required")]
     end)
    (fun e => respond 500 [("error", JString (message_or e "failed to store document"))]).

(** [`${user.id}_${Date.now()}_${index}`]. *)
Definition batch_id (userId : string) (now : Z) (index : nat) : string :=
  userId ++ "_" ++ num_string now ++ "_" ++ string_of_nat index.

(** The [documents.map((doc, index) => ...)] of [storeBatchDocuments]. *)
Fixpoint prepare_docs (userId : string) (now : nat -> Z) (index : nat) (docs : list json)
    : Result (list BatchDoc) :=
  match docs with
  | [] => Ok []
  | doc :: docs' =>
      match member doc "id", member doc "text", member doc "metadata" with
      | Ok id, Ok text, Ok metadata =>
          let id := match id with
                    | Some v => if truthy (Some v) then v else JString (batch_id userId (now index) index)
                    | None => JString (batch_id userId (now index) index)
                    end in
          let metadata :=
            obj_set "created_at" (JString (to_iso_string (now index)))
              (obj_set "user_id" (JString userId) (obj_assign [] (own_props metadata))) in
          match prepare_docs userId now (S index) docs' with
          | Ok rest => Ok (mkBatchDoc id text (Some (JObject metadata)) :: rest)
          | Err e => Err e
          end
      | Err e, _, _ | _, Err e, _ | _, _, Err e => Err e
      end
  end.

Definition storeBatchDocuments_ctl (w : DocWorld) (userId : string) (body : obj) : DM unit :=
  dtry
    (match obj_get "documents" body with
     | Some (JArray ((_ :: _) as documents)) =>
         if (100 <? List.length documents)%nat then
           respond 400 [("error", JString "maximum 100 documents per batch")]
         else
           dlift (dw_qdrant_init w);;;
           preparedDocs <- dlift (prepare_docs userId (dw_now w) 0 documents);;
           storeBatch w preparedDocs;;;
           respond 201 [("message", JString "documents stored successfully");
                        ("count", JNumber (Z.of_nat (List.length preparedDocs)));
                        ("ids", JArray (map bd_id preparedDocs))]
     | _ => respond 400 [("error", JString "documents array is required")]
     end)
    (fun e => respond 500 [("error", JString (message_or e "failed to store documents"))]).

Definition searchDocuments_ctl (w : DocWorld) (userId : string) (body : obj) : DM unit :=
  dtry
    (let query := obj_get "query" body in
     let limit := match obj_get "limit" body with None => JNumber 5 | Some l => l end in
     let global := match obj_get "global" body with None => JBool false | Some g => g end in
     match query with
     | Some query =>
         if truthy (Some query) then
           dlift (dw_qdrant_init w);;;
           results <- (if truthy (Some global) then search w query limit None
                       else searchByUser w query userId limit);;
           respond 200 [("query", query); ("results", JArray (map JObject results));
                        ("count", JNumber (Z.of_nat (List.length results)))]
         else respond 400 [("error", JString "query is required")]
     | None => respond 400 [("error", JString "query is required")]
     end)
    (fun e => respond 500 [("error", JString (message_or e "search failed"))]).



(** [req.params.id] is a string. *)
Definition deleteDocument_ctl (w : DocWorld) (id : string) : DM unit :=
  dtry
    (dlift (dw_qdrant_init w);;;
     deleteDocument w (JString id);;;
     respond 200 [("message", JString "document deleted successfully"); ("id", JString id)])
    (fun e => respond 500 [("error", JString (message_or e "failed to delete document"))]).

Definition deleteAllUserDocuments_ctl (w : DocWorld) (userId : string) : DM unit :=
  dtry
    (dlift (dw_qdrant_init w);;;
     deleteByUser w userId;;;
     respond 200 [("message", JString "all documents deleted successfully")])
    (fun e => respond 500 [("error", JString (message_or e "failed to delete documents"))]).

(** Every point a request upserted. *)
Fixpoint upserted (evs : list DocEvent) : list Point :=
  match evs with
  | [] => []
  | DUpsert pts :: evs' => (pts ++ upserted evs')%list
  | _ :: evs' => upserted evs'
  end.

(** The filter of every vector search a request made. *)
Fixpoint search_filters (evs : list DocEvent) : list (option Filter) :=
  match evs with
  | [] => []
  | DSearch _ _ f :: evs' => f :: search_filters evs'
  | _ :: evs' => search_filters evs'
  end.

(** The last response event of a request. *)
Fixpoint last_response (evs : list DocEvent) : option (Z * obj) :=
  match evs with
  | [] => None
  | DRespond s b :: evs' =>
      match last_response evs' with Some r => Some r | None => Some (s, b) end
  | _ :: evs' => last_response evs'
  end.

Definition is_qdrant_call (e : DocEvent) : bool :=
  match e with DRespond _ _ => false | _ => true end.

End Docs.

(** ** Concrete requests and service behaviours *)
Module Scenarios.
Import JS History Chat.
Local Open Scope Z_scope.

(** 2026-10-17T00:00:00.000Z. *)
Definition now0 : Z := 1792195200000.

(** A profile with [history], every service up, an LLM answering
    [response] (in one chunk when streamed) and a Qdrant collection that
    exists and returns [hits]. *)
Definition base_world (history : list ConversationMessage) (response : string)
    (hits : list RawHit) : World :=
  mkWorld now0 false "You are a helpful assistant." history (Ok tt)
    (fun _ => Ok response) (fun _ => ([response], None))
    (Ok tt) (Ok true) (Ok tt) (fun _ => Ok [3; 4]) (fun _ _ _ => Ok hits).

(** Scenario B: an empty history and an LLM that answers "Hi there". *)
Definition world_B : World := base_world [] "Hi there" [].

Definition req_hello : Request := mkRequest "user-1" "Hello" (Some []) false 3.

(** Twelve untimestamped turns "1" .. "12". *)
Definition hist12 : list ConversationMessage :=
  map (fun n => mkMsg User (string_of_nat n) TsUndef) (seq 1 12).

Definition world_12 : World := base_world hist12 "ok" [].

Definition req_hi : Request := mkRequest "user-1" "hi" (Some []) false 3.

(** A transcript on which characters and rounded-up tokens disagree. *)
Definition token_cex : list ConversationMessage :=
  [mkMsg Assistant (str_repeat 31977 "a") TsUndef;
   mkMsg User "a" TsUndef; mkMsg User "a" TsUndef].

(** A cache of capacity 2 holding "a" then "b". *)
Definition cache_ab : Cache.EmbeddingCache (list Z) :=
  Cache.set 0 "b" [4] (Cache.set 0 "a" [3] (Cache.new_cache 2 1000)).

Definition cache_ops : list (Cache.CacheOp (list Z)) :=
  [Cache.OpSet 0 "a" [1]; Cache.OpSet 1 "b" [2]; Cache.OpSet 2 "c" [3];
   Cache.OpGet 5000 "b"; Cache.OpSet 6000 "c" [4]; Cache.OpClear;
   Cache.OpSet 7000 "d" [5]].

(** Retrieval with one stored document. *)
Definition doc_hit : RawHit := mkHit "doc-1" 1 [("text", "RAG means retrieval-augmented generation")].

Definition world_rag : World := base_world [] "ok" [doc_hit].

Definition req_rag : Request := mkRequest "user-1" "What is RAG?" (Some []) true 3.

(** The embedding backend is down. *)
Definition world_embed_down : World :=
  mkWorld now0 false "You are a helpful assistant." [] (Ok tt)
    (fun _ => Ok "ok") (fun _ => (["ok"], None))
    (Ok tt) (Ok true) (Ok tt) (fun _ => Err "embedding backend unavailable")
    (fun _ _ _ => Ok []).

(** The LLM stream fails after one chunk. *)
Definition world_stream_fail : World :=
  mkWorld now0 false "You are a helpful assistant." [] (Ok tt)
    (fun _ => Ok "ok") (fun _ => (["Hel"], Some "network failure"))
    (Ok tt) (Ok true) (Ok tt) (fun _ => Ok [3; 4]) (fun _ _ _ => Ok []).

(** A valid message with [context] omitted from the body. *)
Definition req_no_context : Request := mkRequest "user-1" "Hello" None true 3.

End Scenarios.

(** * Proofs *)
Import JS History.
Local Open Scope list_scope.

(** ** Trimming pipeline *)

Lemma chars_sum_nil : chars_sum [] = 0%Z.
Proof. reflexivity. Qed.

Lemma chars_sum_cons m l : chars_sum (m :: l) = (messageChars m + chars_sum l)%Z.
Proof. reflexivity. Qed.

Lemma chars_sum_app l1 l2 : chars_sum (l1 ++ l2) = (chars_sum l1 + chars_sum l2)%Z.
Proof.
  induction l1 as [|m l1 IH]; [reflexivity|].
  cbn [app]. rewrite !chars_sum_cons, IH. lia.
Qed.

Lemma chars_sum_rev l : chars_sum (rev l) = chars_sum l.
Proof.
  induction l as [|m l IH]; [reflexivity|].
  cbn [rev]. rewrite chars_sum_app, chars_sum_cons, chars_sum_cons, chars_sum_nil, IH. lia.
Qed.

Lemma messageChars_nonneg m : (0 <= messageChars m)%Z.
Proof. unfold messageChars, str_length. lia. Qed.

Lemma chars_sum_nonneg l : (0 <= chars_sum l)%Z.
Proof.
  induction l as [|m l IH]; [reflexivity|].
  rewrite chars_sum_cons. pose proof (messageChars_nonneg m). lia.
Qed.

Lemma MAX_HISTORY_CHARS_value : MAX_HISTORY_CHARS = 32000%Z.
Proof. reflexivity. Qed.

(** Loop invariant of [trimConversationHistory]: after visiting the
    history most recent first, the result is the first [n] visited turns
    (in their original order) in front of the accumulator; the total fits,
    and either every turn was taken or the next one would overflow. *)
Lemma trim_loop_spec : forall rest total acc,
  total = chars_sum acc -> (total <= MAX_HISTORY_CHARS)%Z ->
  exists n, (n <= List.length rest)%nat /\
    trim_loop rest total acc = rev (firstn n rest) ++ acc /\
    (chars_sum (rev (firstn n rest) ++ acc) <= MAX_HISTORY_CHARS)%Z /\
    (n = List.length rest \/
     (MAX_HISTORY_CHARS < chars_sum (rev (firstn (S n) rest) ++ acc))%Z).
Proof.
  induction rest as [|m rest IH]; intros total acc Ht Hle.
  - exists 0%nat. cbn [firstn rev app trim_loop List.length]. subst.
    repeat split; auto.
  - cbn [trim_loop]. destruct (MAX_HISTORY_CHARS <? total + messageChars m)%Z eqn:E.
    + apply Z.ltb_lt in E. exists 0%nat. cbn [firstn rev app].
      repeat split; try lia; try (subst; assumption).
      right. rewrite chars_sum_cons. subst. lia.
    + apply Z.ltb_ge in E.
      destruct (IH (total + messageChars m)%Z (m :: acc)) as (n & Hn & Heq & Hsum & Hstop);
        [rewrite chars_sum_cons; lia | lia |].
      exists (S n). cbn [firstn rev List.length]. rewrite <- app_assoc. cbn [app].
      repeat split; try lia; try assumption.
      destruct Hstop as [Hs | Hs]; [left; lia | right].
      cbn [firstn rev] in Hs |- *. rewrite <- app_assoc. exact Hs.
Qed.

(** The third stage keeps the longest suffix whose [content.length +
    role.length] total fits in [MAX_HISTORY_CHARS]. *)
Lemma trimConversationHistory_suffix (history : list ConversationMessage) :
  exists k, trimConversationHistory history = skipn k history /\
    (chars_sum (skipn k history) <= MAX_HISTORY_CHARS)%Z /\
    (k = 0%nat \/ (MAX_HISTORY_CHARS < chars_sum (skipn (k - 1) history))%Z).
Proof.
  destruct history as [|m0 h0].
  - exists 0%nat. split; [reflexivity|]. split; [|left; reflexivity].
    cbn [skipn]. rewrite chars_sum_nil, MAX_HISTORY_CHARS_value. lia.
  - set (h := m0 :: h0).
    change (trimConversationHistory h) with (trim_loop (rev h) 0 []).
    destruct (trim_loop_spec (rev h) 0 [] eq_refl
                ltac:(rewrite MAX_HISTORY_CHARS_value; lia))
      as (n & Hn & Heq & Hsum & Hstop).
    rewrite length_rev in Hn. rewrite app_nil_r in Heq, Hsum.
    rewrite firstn_rev, rev_involutive in Heq, Hsum.
    exists (List.length h - n)%nat. split; [exact Heq|]. split; [exact Hsum|].
    destruct Hstop as [Hs | Hs].
    + left. rewrite length_rev in Hs. lia.
    + right. rewrite app_nil_r, firstn_rev, rev_involutive in Hs.
      replace (List.length h - n - 1)%nat with (List.length h - S n)%nat by lia.
      exact Hs.
Qed.

Lemma trim_loop_fits : forall rest total acc,
  (total + chars_sum rest <= MAX_HISTORY_CHARS)%Z ->
  trim_loop rest total acc = rev rest ++ acc.
Proof.
  induction rest as [|m rest IH]; intros total acc H; [reflexivity|].
  rewrite chars_sum_cons in H. pose proof (chars_sum_nonneg rest). cbn [trim_loop].
  destruct (MAX_HISTORY_CHARS <? total + messageChars m)%Z eqn:E.
  - apply Z.ltb_lt in E. lia.
  - rewrite IH by lia. cbn [rev]. rewrite <- app_assoc. reflexivity.
Qed.

Lemma trimConversationHistory_fits (l : list ConversationMessage) :
  (chars_sum l <= MAX_HISTORY_CHARS)%Z -> trimConversationHistory l = l.
Proof.
  intro H. destruct l as [|m l]; [reflexivity|].
  change (trimConversationHistory (m :: l)) with (trim_loop (rev (m :: l)) 0 []).
  rewrite trim_loop_fits by (rewrite chars_sum_rev; lia).
  rewrite app_nil_r. apply rev_involutive.
Qed.

Lemma trimToLastN_suffix (l : list ConversationMessage) (count : nat) :
  exists j, trimToLastN l count = skipn j l /\
    (count = 0%nat \/ (List.length (trimToLastN l count) <= count)%nat).
Proof.
  unfold trimToLastN. destruct (List.length l <=? count)%nat eqn:E.
  - apply Nat.leb_le in E. exists 0%nat. split; [reflexivity|]. right. exact E.
  - apply Nat.leb_gt in E. destruct count as [|c].
    + exists 0%nat. split; [reflexivity|]. left. reflexivity.
    + exists (List.length l - S c)%nat. split; [reflexivity|]. right.
      unfold slice_neg. rewrite length_skipn. lia.
Qed.

Lemma forallb_skipn {A} (f : A -> bool) (n : nat) (l : list A) :
  forallb f l = true -> forallb f (skipn n l) = true.
Proof.
  revert l. induction n as [|n IH]; intros l H; [exact H|].
  destruct l as [|x l]; [reflexivity|]. cbn in H |- *.
  apply andb_true_iff in H as [_ H]. apply IH, H.
Qed.

Lemma trimByAge_suffix_fixed (now hours : Z) (T : list ConversationMessage) (k : nat) :
  trimByAge now (skipn k (trimByAge now T hours)) hours = skipn k (trimByAge now T hours).
Proof.
  unfold trimByAge. apply forallb_filter_id, forallb_skipn, forallb_filter.
Qed.

Lemma smartTrim_idem_gen (now hours : Z) (maxMessages : nat) (T : list ConversationMessage) :
  smartTrimConversationHistory now (smartTrimConversationHistory now T maxMessages hours)
    maxMessages hours
  = smartTrimConversationHistory now T maxMessages hours.
Proof.
  unfold smartTrimConversationHistory at 2.
  set (A := trimByAge now T hours).
  destruct (trimToLastN_suffix A maxMessages) as (j & HB & Hlen).
  set (B := trimToLastN A maxMessages) in *.
  destruct (trimConversationHistory_suffix B) as (k & Hr & Hsum & _).
  set (r := trimConversationHistory B) in *.
  assert (HA : trimByAge now r hours = r).
  { rewrite Hr, HB, skipn_skipn. apply trimByAge_suffix_fixed. }
  assert (HN : trimToLastN r maxMessages = r).
  { destruct Hlen as [H0 | Hle].
    - subst maxMessages. unfold trimToLastN.
      destruct (List.length r <=? 0)%nat; reflexivity.
    - unfold trimToLastN.
      assert (Hr' : (List.length r <= maxMessages)%nat).
      { rewrite Hr, length_skipn. lia. }
      apply Nat.leb_le in Hr'. rewrite Hr'. reflexivity. }
  unfold smartTrimConversationHistory. rewrite HA, HN.
  rewrite trimConversationHistory_fits; [reflexivity | rewrite Hr; exact Hsum].
Qed.


(** ** Retrieval and the shared request prefix *)
Import Chat.

Lemma retrieval_block_events (w : World) (req : Request) :
  forallb is_retrieval_event (snd (retrieval_block w req)) = true.
Proof.
  unfold retrieval_block, searchByUser, search, ensureCollection.
  destruct (w_qdrant_init w) as [[]|]; cbn; [|reflexivity].
  destruct (w_get_collections w) as [[|]|]; cbn; [| |reflexivity].
  - destruct (w_embed w (message req)) as [v|]; cbn; [|reflexivity].
    destruct (w_search w v (retrieve_limit req) (Some (user_filter (user_id req)))); reflexivity.
  - destruct (w_create_collection w) as [[]|]; cbn; [|reflexivity].
    destruct (w_embed w (message req)) as [v|]; cbn; [|reflexivity].
    destruct (w_search w v (retrieve_limit req) (Some (user_filter (user_id req)))); reflexivity.
Qed.

Lemma retrieve_docs_ok (w : World) (req : Request) :
  exists docs, fst (retrieve_docs w req) = Ok docs /\
    forallb is_retrieval_event (snd (retrieve_docs w req)) = true.
Proof.
  pose proof (retrieval_block_events w req) as Hev.
  unfold retrieve_docs. destruct (auto_retrieve req); [|exists []; split; reflexivity].
  unfold try_catch. destruct (retrieval_block w req) as [[docs|e] evs]; cbn in Hev |- *.
  - exists docs. split; [reflexivity|exact Hev].
  - exists []. split; [reflexivity|]. rewrite app_nil_r. exact Hev.
Qed.

Lemma retrieve_docs_failure (w : World) (req : Request) (e : string) :
  auto_retrieve req = true -> fst (retrieval_block w req) = Err e ->
  retrieve_docs w req = (Ok [], snd (retrieval_block w req)).
Proof.
  intros Hauto Hfail. unfold retrieve_docs. rewrite Hauto. unfold try_catch.
  destruct (retrieval_block w req) as [[docs|e'] evs]; cbn in Hfail; [discriminate|].
  cbn. rewrite app_nil_r. reflexivity.
Qed.

(** After validation, the shared prefix loads the profile, runs the
    retrieval step and yields the history window and a prompt. *)
Lemma prepare_ok (w : World) (req : Request) :
  w_llm_init w = Ok tt ->
  exists docs msgs, fst (retrieve_docs w req) = Ok docs /\
    prepare w req = (Ok (recent_window w, msgs),
                     EvLoadUserDetail (user_id req) :: snd (retrieve_docs w req)).
Proof.
  intro Hinit. destruct (retrieve_docs_ok w req) as (docs & Hd & _).
  exists docs. unfold prepare. rewrite Hinit.
  destruct (retrieve_docs w req) as [r evs] eqn:E. cbn in Hd. subst r.
  eexists. split; [reflexivity|]. cbn. rewrite !app_nil_r. reflexivity.
Qed.

Lemma retrieval_events_quiet (l : list Event) :
  forallb is_retrieval_event l = true -> forallb quiet l = true.
Proof.
  induction l as [|ev l IH]; intro H; [reflexivity|].
  cbn in H |- *. apply andb_true_iff in H as [H1 H2].
  rewrite IH by exact H2. destruct ev; try discriminate; reflexivity.
Qed.

Lemma prepare_quiet (w : World) (req : Request) (p : list ConversationMessage * list ConversationMessage) evs :
  prepare w req = (Ok p, evs) -> forallb quiet evs = true.
Proof.
  intro H. destruct (w_llm_init w) as [[]|e] eqn:Hinit.
  - destruct (prepare_ok w req Hinit) as (docs & msgs & _ & Hp).
    rewrite Hp in H. injection H as _ <-. cbn.
    destruct (retrieve_docs_ok w req) as (_ & _ & Hev).
    apply retrieval_events_quiet, Hev.
  - unfold prepare in H. rewrite Hinit in H. cbn in H. discriminate.
Qed.

Lemma write_chunks_run : forall chunks acc,
  write_chunks chunks acc
  = (Ok (fold_left String.append chunks acc), List.map EvSseChunk chunks).
Proof.
  induction chunks as [|c cs IH]; intro acc; [reflexivity|].
  cbn [write_chunks]. rewrite IH. reflexivity.
Qed.

Lemma quiet_no_update (l : list Event) :
  forallb quiet l = true -> filter is_update l = [].
Proof.
  induction l as [|ev l IH]; intro H; [reflexivity|].
  cbn in H. apply andb_true_iff in H as [H1 H2].
  unfold quiet in H1. apply andb_true_iff in H1 as [_ H1].
  cbn. destruct (is_update ev); [discriminate|]. apply IH, H2.
Qed.

Lemma quiet_no_write (l : list Event) :
  forallb quiet l = true -> existsb is_response_write l = false.
Proof.
  induction l as [|ev l IH]; intro H; [reflexivity|].
  cbn in H. apply andb_true_iff in H as [H1 H2].
  unfold quiet in H1. apply andb_true_iff in H1 as [H1 _].
  cbn. destruct (is_response_write ev); [discriminate|]. apply IH, H2.
Qed.

(** The commit step of [chat]: one history write, of the trimmed window
    followed by the two new turns. *)
Lemma chat_commit (w : World) (req : Request) (response : string) :
  validate req = [] -> w_llm_init w = Ok tt -> w_debug w = false ->
  (forall ms, w_llm_chat w ms = Ok response) ->
  fst (chat w req) = Ok tt /\
  filter is_update (snd (chat w req))
  = [EvUpdateHistory (user_id req)
       (smartTrim (w_now w)
          (recent_window w ++ new_turns (w_now w) (message req) response))].
Proof.
  intros Hv Hinit Hdbg Hllm.
  destruct (prepare_ok w req Hinit) as (docs & msgs & _ & Hp).
  pose proof (prepare_quiet w req _ _ Hp) as Hq.
  set (evs := EvLoadUserDetail (user_id req) :: snd (retrieve_docs w req)) in *.
  unfold chat. rewrite Hv. rewrite Hp. rewrite Hdbg.
  cbn [bind emit lift ret try_catch]. rewrite Hllm.
  cbn [bind emit lift ret try_catch fst snd].
  split; [reflexivity|].
  rewrite !filter_app, quiet_no_update by exact Hq. reflexivity.
Qed.

Lemma filter_map_chunks (chunks : list string) :
  filter is_update (List.map EvSseChunk chunks) = [].
Proof. induction chunks as [|c cs IH]; [reflexivity|]. exact IH. Qed.

(** The commit step of [chatStream] after a complete stream. *)
Lemma chatStream_commit (w : World) (req : Request) (chunks : list string) :
  validate req = [] -> w_llm_init w = Ok tt -> w_debug w = false ->
  (forall ms, w_llm_stream w ms = (chunks, None)) ->
  fst (chatStream w req) = Ok tt /\
  filter is_update (snd (chatStream w req))
  = [EvUpdateHistory (user_id req)
       (smartTrim (w_now w)
          (recent_window w ++
           new_turns (w_now w) (message req) (fold_left String.append chunks "")))].
Proof.
  intros Hv Hinit Hdbg Hst.
  destruct (prepare_ok w req Hinit) as (docs & msgs & _ & Hp).
  pose proof (prepare_quiet w req _ _ Hp) as Hq.
  set (evs := EvLoadUserDetail (user_id req) :: snd (retrieve_docs w req)) in *.
  unfold chatStream. rewrite Hv. rewrite Hp. rewrite Hdbg.
  cbn [bind emit lift ret]. unfold stream_llm. rewrite Hst.
  cbn [bind emit lift ret]. rewrite write_chunks_run.
  cbn [bind emit lift ret try_catch fst snd].
  split; [reflexivity|].
  rewrite !filter_app, quiet_no_update by exact Hq.
  rewrite filter_map_chunks. reflexivity.
Qed.

Lemma chatStream_stream_failure (w : World) (req : Request) (chunks : list string) (e : string) :
  validate req = [] -> w_llm_init w = Ok tt -> w_debug w = false ->
  (forall ms, w_llm_stream w ms = (chunks, Some e)) ->
  fst (chatStream w req) = Ok tt /\
  (exists pre ms, snd (chatStream w req)
     = pre ++ EvSetHeaders :: EvLlmStream ms :: List.map EvSseChunk chunks ++ [EvSseError e; EvEnd]
   /\ forallb quiet pre = true) /\
  filter is_update (snd (chatStream w req)) = [].
Proof.
  intros Hv Hinit Hdbg Hst.
  destruct (prepare_ok w req Hinit) as (docs & msgs & _ & Hp).
  pose proof (prepare_quiet w req _ _ Hp) as Hq.
  set (evs := EvLoadUserDetail (user_id req) :: snd (retrieve_docs w req)) in *.
  unfold chatStream. rewrite Hv. rewrite Hp. rewrite Hdbg.
  cbn [bind emit lift ret]. unfold stream_llm. rewrite Hst.
  cbn [bind emit lift ret]. rewrite write_chunks_run.
  cbn [bind emit lift ret throw try_catch fst snd].
  split; [reflexivity|]. split.
  - exists evs, msgs. split; [|exact Hq]. rewrite !app_nil_r. cbn [app]. reflexivity.
  - rewrite !filter_app, quiet_no_update by exact Hq.
    cbn [app filter is_update]. rewrite filter_map_chunks. reflexivity.
Qed.

Lemma bind_ok_events {A B} (a : A) (evs : list Event) (f : A -> M B) :
  bind (Ok a, evs) f = (fst (f a), evs ++ snd (f a)).
Proof. cbn. destruct (f a). reflexivity. Qed.

Lemma try_catch_prefix {A} (m : M A) (L : list Event) (h : string -> list Event -> M A) :
  (forall e evs, h e evs = h e []) ->
  try_catch (fst m, L ++ snd m) h = (fst (try_catch m h), L ++ snd (try_catch m h)).
Proof.
  intro Hh. destruct m as [[a|e] evs]; cbn; [reflexivity|].
  rewrite (Hh e (L ++ evs)), (Hh e evs). destruct (h e []). cbn.
  rewrite app_assoc. reflexivity.
Qed.

Lemma validate_no_rag (req : Request) : validate (no_rag req) = validate req.
Proof. reflexivity. Qed.

(** A failed retrieval leaves the prompt as without RAG. *)
Lemma prepare_retrieval_failure (w : World) (req : Request) (e : string) :
  w_llm_init w = Ok tt -> auto_retrieve req = true -> fst (retrieval_block w req) = Err e ->
  exists P, prepare w req = (Ok P, EvLoadUserDetail (user_id req) :: snd (retrieval_block w req))
         /\ prepare w (no_rag req) = (Ok P, [EvLoadUserDetail (user_id req)]).
Proof.
  intros Hinit Hauto Hfail. unfold prepare. rewrite Hinit.
  rewrite (retrieve_docs_failure w req e Hauto Hfail).
  change (retrieve_docs w (no_rag req)) with (@ret (list string) []).
  cbn [bind emit lift ret]. rewrite !app_nil_r.
  eexists. split; reflexivity.
Qed.

Lemma chat_retrieval_failure (w : World) (req : Request) (e : string) :
  validate req = [] -> w_llm_init w = Ok tt -> auto_retrieve req = true ->
  fst (retrieval_block w req) = Err e ->
  fst (chat w req) = fst (chat w (no_rag req)) /\
  exists T, snd (chat w (no_rag req)) = EvLoadUserDetail (user_id req) :: T /\
            snd (chat w req) = EvLoadUserDetail (user_id req) :: snd (retrieval_block w req) ++ T.
Proof.
  intros Hv Hinit Hauto Hfail.
  destruct (prepare_retrieval_failure w req e Hinit Hauto Hfail) as (P & Hp & Hp').
  unfold chat. rewrite validate_no_rag, Hv, Hp, Hp'.
  rewrite !bind_ok_events.
  rewrite !try_catch_prefix by (intros; reflexivity).
  split; [reflexivity|].
  eexists. split; reflexivity.
Qed.

(** ** ISO timestamps under the age filter *)

Lemma str_any_app_r (f : ascii -> bool) (a b : string) :
  str_any f b = true -> str_any f (a ++ b) = true.
Proof.
  intro H. induction a as [|c a IH]; [exact H|].
  cbn. rewrite IH. apply orb_true_r.
Qed.

(** Every [toISOString] result holds a ['T'], which no numeric literal
    contains, so ToNumber makes it NaN. *)
Lemma iso_not_numeric (t : Z) :
  str_any (fun c => negb (in_numeric_alphabet c)) (to_iso_string t) = true.
Proof.
  unfold to_iso_string. destruct (civil_from_days (t / 86400000)) as [[y mo] d].
  cbv beta iota zeta.
  do 5 apply str_any_app_r. reflexivity.
Qed.

Lemma iso_to_number_nan (t : Z) : to_number_str (to_iso_string t) = JNaN.
Proof. unfold to_number_str. rewrite iso_not_numeric. reflexivity. Qed.

Lemma iso_truthy (t : Z) : ts_falsy (TsStr (to_iso_string t)) = false.
Proof.
  pose proof (iso_not_numeric t) as H. cbn [ts_falsy].
  destruct (to_iso_string t); [discriminate|reflexivity].
Qed.

(** The age filter drops both turns of a commit. *)
Lemma smartTrim_new_turns (now : Z) (m r : string) :
  smartTrim now (new_turns now m r) = [].
Proof.
  unfold smartTrim, smartTrimConversationHistory, trimByAge, new_turns.
  cbn [filter ts]. rewrite iso_truthy. cbn [ts_gt]. rewrite iso_to_number_nan.
  reflexivity.
Qed.

Lemma persisted_single (evs : list Event) (u : string) (h : list ConversationMessage) :
  filter is_update evs = [EvUpdateHistory u h] -> persisted evs = Some h.
Proof.
  induction evs as [|ev evs IH]; intro H; [discriminate|].
  destruct ev; cbn in H |- *; try (apply IH; exact H).
  injection H as _ -> _. reflexivity.
Qed.

(** ** The embedding cache *)

Section CacheProofs.
Context {V : Type}.

Definition key_ok (p : string * Cache.CachedEmbedding V) : Prop := fst p <> ""%string.

Lemma getKey_nonempty (text : string) : Cache.getKey text <> ""%string.
Proof. unfold Cache.getKey. discriminate. Qed.

Lemma map_set_length (k : string) (v : Cache.CachedEmbedding V) (m : Cache.JsMap V) :
  (List.length (Cache.map_set k v m) <= S (List.length m))%nat.
Proof.
  induction m as [|[k' v'] m IH]; cbn; [lia|].
  destruct (String.eqb k k'); cbn; lia.
Qed.

Lemma map_set_keys (k : string) (v : Cache.CachedEmbedding V) (m : Cache.JsMap V) :
  k <> ""%string -> Forall key_ok m -> Forall key_ok (Cache.map_set k v m).
Proof.
  intros Hk Hm. induction Hm as [|[k' v'] m Hp Hm IH]; cbn.
  - constructor; [exact Hk | constructor].
  - destruct (String.eqb k k'); constructor; auto.
Qed.

Lemma map_delete_keys (k : string) (m : Cache.JsMap V) :
  Forall key_ok m -> Forall key_ok (Cache.map_delete k m).
Proof.
  intro Hm. induction Hm as [|[k' v'] m Hp Hm IH]; cbn; [constructor|].
  destruct (String.eqb k k'); [exact Hm | constructor; auto].
Qed.

Lemma map_delete_length (k : string) (m : Cache.JsMap V) :
  (List.length (Cache.map_delete k m) <= List.length m)%nat.
Proof.
  induction m as [|[k' v'] m IH]; cbn; [lia|].
  destruct (String.eqb k k'); cbn; lia.
Qed.

Lemma map_get_set_other (k k' : string) (v : Cache.CachedEmbedding V) (m : Cache.JsMap V) :
  k <> k' -> Cache.map_get k' (Cache.map_set k v m) = Cache.map_get k' m.
Proof.
  intro Hne. induction m as [|[k0 v0] m IH]; cbn.
  - destruct (String.eqb_spec k' k); [congruence | reflexivity].
  - destruct (String.eqb_spec k k0) as [->|Hk0]; cbn.
    + destruct (String.eqb_spec k' k0); [congruence|].
      reflexivity.
    + rewrite IH. reflexivity.
Qed.

(** The size invariant of a cache built by [new EmbeddingCache(maxSize)]
    with [maxSize >= 1]. *)
Definition cache_inv (c : Cache.EmbeddingCache V) : Prop :=
  (1 <= Cache.maxSize c)%nat /\
  (List.length (Cache.cache c) <= Cache.maxSize c)%nat /\
  Forall key_ok (Cache.cache c).

Lemma get_inv (now : Z) (text : string) (c : Cache.EmbeddingCache V) :
  cache_inv c -> cache_inv (snd (Cache.get now text c)).
Proof.
  intros (H1 & H2 & H3). unfold Cache.get.
  destruct (Cache.map_get _ _); [|split; auto].
  destruct (Z.ltb _ _); cbn [snd]; [|split; auto].
  unfold cache_inv; cbn [Cache.cache Cache.maxSize].
  split; [exact H1|]. split.
  - pose proof (map_delete_length (Cache.getKey text) (Cache.cache c)). lia.
  - apply map_delete_keys. exact H3.
Qed.

Lemma set_inv (now : Z) (text : string) (e : V) (c : Cache.EmbeddingCache V) :
  cache_inv c -> cache_inv (Cache.set now text e c).
Proof.
  intros (H1 & H2 & H3). unfold Cache.set, cache_inv. cbn [Cache.maxSize Cache.cache].
  split; [exact H1|].
  destruct (Nat.leb_spec (Cache.maxSize c) (List.length (Cache.cache c))) as [Hle|Hlt].
  - destruct (Cache.cache c) as [|[k0 v0] rest] eqn:Ec;
      cbn [List.length Cache.map_first_key] in *; [lia|].
    inversion H3 as [|? ? Hk0 Hrest]; subst.
    unfold key_ok in Hk0; cbn [fst] in Hk0.
    destruct (String.eqb_spec k0 ""); [contradiction|].
    cbn [negb Cache.map_delete]. rewrite String.eqb_refl. split.
    + pose proof (map_set_length (Cache.getKey text) (Cache.mkCached text e now) rest). lia.
    + apply map_set_keys; [apply getKey_nonempty | exact Hrest].
  - split.
    + pose proof (map_set_length (Cache.getKey text) (Cache.mkCached text e now) (Cache.cache c)). lia.
    + apply map_set_keys; [apply getKey_nonempty | exact H3].
Qed.

Lemma step_inv (c : Cache.EmbeddingCache V) (op : Cache.CacheOp V) :
  cache_inv c -> cache_inv (Cache.step c op).
Proof.
  intro H. destruct op; cbn [Cache.step].
  - apply get_inv, H.
  - apply set_inv, H.
  - destruct H as (H1 & _). split; [exact H1|]. cbn. split; [lia | constructor].
Qed.

Lemma run_inv (c : Cache.EmbeddingCache V) (ops : list (Cache.CacheOp V)) :
  cache_inv c -> cache_inv (Cache.run c ops).
Proof.
  unfold Cache.run. revert c. induction ops as [|op ops IH]; intros c H; cbn; [exact H|].
  apply IH, step_inv, H.
Qed.

Lemma step_maxSize (c : Cache.EmbeddingCache V) (op : Cache.CacheOp V) :
  Cache.maxSize (Cache.step c op) = Cache.maxSize c.
Proof.
  destruct op as [now text|now text e|]; cbn [Cache.step]; [|reflexivity|reflexivity].
  unfold Cache.get. destruct (Cache.map_get _ _); [|reflexivity].
  destruct (Z.ltb _ _); reflexivity.
Qed.

Lemma run_maxSize (c : Cache.EmbeddingCache V) (ops : list (Cache.CacheOp V)) :
  Cache.maxSize (Cache.run c ops) = Cache.maxSize c.
Proof.
  unfold Cache.run. revert c. induction ops as [|op ops IH]; intro c; cbn; [reflexivity|].
  rewrite IH. apply step_maxSize.
Qed.

End CacheProofs.

(** * The claims *)
Import Scenarios.

(** ** C1 *)

(** C1. A chat commit on an empty history persists no turn at all: the two
    new turns carry [new Date().toISOString()] timestamps, which are truthy
    and compare as NaN against the numeric cutoff of [trimByAge], so the
    age filter of [smartTrimConversationHistory] removes both before
    [UserDetail.update]. *)
Theorem chat_commit_drops_new_turns (w : World) (req : Request) (response : string) :
  w_history w = [] -> validate req = [] -> w_llm_init w = Ok tt -> w_debug w = false ->
  (forall ms, w_llm_chat w ms = Ok response) ->
  persisted (snd (chat w req)) = Some [].
Proof.
  intros Hh Hv Hi Hd Hl.
  destruct (chat_commit w req response Hv Hi Hd Hl) as [_ Hf].
  rewrite (persisted_single _ _ _ Hf). f_equal.
  assert (Hr : recent_window w = []) by (unfold recent_window; rewrite Hh; reflexivity).
  rewrite Hr. apply smartTrim_new_turns.
Qed.

Lemma chat_commit_drops_new_turns_witness :
  w_history world_B = [] /\ validate req_hello = [] /\ w_llm_init world_B = Ok tt /\
  w_debug world_B = false /\ persisted (snd (chat world_B req_hello)) = Some [].
Proof.
  split; [reflexivity|]. split; [reflexivity|]. split; [reflexivity|].
  split; [reflexivity|].
  apply (chat_commit_drops_new_turns world_B req_hello "Hi there");
    [reflexivity | reflexivity | reflexivity | reflexivity | intros; reflexivity].
Defined.

(** ** C2 *)

(** C2 (as the code does it). In both modes a successful request writes
    once, and what it writes is [smartTrimConversationHistory] of the
    request's history window ([slice(-10)] of the loaded history, after the
    proactive cleanup) followed by the two new ISO-stamped turns. *)
Theorem commit_writes_trimmed_window (w : World) (req : Request) :
  validate req = [] -> w_llm_init w = Ok tt -> w_debug w = false ->
  (forall response, (forall ms, w_llm_chat w ms = Ok response) ->
     filter is_update (snd (chat w req))
     = [EvUpdateHistory (user_id req)
          (smartTrim (w_now w)
             (recent_window w ++ new_turns (w_now w) (message req) response))]) /\
  (forall chunks, (forall ms, w_llm_stream w ms = (chunks, None)) ->
     filter is_update (snd (chatStream w req))
     = [EvUpdateHistory (user_id req)
          (smartTrim (w_now w)
             (recent_window w ++
              new_turns (w_now w) (message req) (fold_left String.append chunks "")))]).
Proof.
  intros Hv Hi Hd. split.
  - intros response Hl. exact (proj2 (chat_commit w req response Hv Hi Hd Hl)).
  - intros chunks Hs. exact (proj2 (chatStream_commit w req chunks Hv Hi Hd Hs)).
Qed.

Lemma commit_writes_trimmed_window_witness :
  validate req_hi = [] /\ w_llm_init world_12 = Ok tt /\ w_debug world_12 = false /\
  filter is_update (snd (chat world_12 req_hi))
  = [EvUpdateHistory "user-1"
       (smartTrim now0 (recent_window world_12 ++ new_turns now0 "hi" "ok"))].
Proof.
  split; [reflexivity|]. split; [reflexivity|]. split; [reflexivity|].
  destruct (commit_writes_trimmed_window world_12 req_hi eq_refl eq_refl eq_refl)
    as [Hc _].
  apply (Hc "ok"). intros; reflexivity.
Defined.

(** C2 fails on twelve untimestamped turns: trimming the loaded transcript
    with the new turns keeps all twelve, but the request persists only the
    last ten. *)
Lemma commit_drops_old_turns :
  smartTrim now0 (w_history world_12 ++ new_turns now0 "hi" "ok") = hist12 /\
  persisted (snd (chat world_12 req_hi)) = Some (skipn 2 hist12) /\
  persisted (snd (chat world_12 req_hi))
  <> Some (smartTrim now0 (w_history world_12 ++ new_turns now0 "hi" "ok")).
Proof.
  split; [vm_compute; reflexivity|]. split; [vm_compute; reflexivity|].
  vm_compute. intro H. discriminate H.
Qed.

(** ** C3 *)

(** C3 (as the code does it). [trimConversationHistory] keeps the longest
    suffix whose characters, [content.length + role.length] per turn, sum
    to at most 32000: the kept suffix fits, and the turn before it does
    not. *)
Theorem trimConversationHistory_char_budget (history : list ConversationMessage) :
  exists k, trimConversationHistory history = skipn k history /\
    (chars_sum (skipn k history) <= MAX_HISTORY_CHARS)%Z /\
    (k = 0%nat \/ (MAX_HISTORY_CHARS < chars_sum (skipn (k - 1) history))%Z).
Proof. apply trimConversationHistory_suffix. Qed.

(** C3 fails on [token_cex]: its 31996 characters fit the character budget,
    while rounded-up tokens give 8002 > 8000 and drop the oldest turn. *)
Lemma char_and_token_budgets_differ :
  List.length (trimConversationHistory token_cex) = 3%nat /\
  List.length (spec_token_trim token_cex) = 2%nat /\
  trimConversationHistory token_cex <> spec_token_trim token_cex.
Proof.
  assert (H3 : List.length (trimConversationHistory token_cex) = 3%nat)
    by (vm_compute; reflexivity).
  assert (H2 : List.length (spec_token_trim token_cex) = 2%nat)
    by (vm_compute; reflexivity).
  split; [exact H3|]. split; [exact H2|].
  intro H. rewrite H, H2 in H3. discriminate H3.
Qed.

(** ** C4 *)

(** C4 (as the code does it). Below capacity [set] only performs
    [Map.set]. At capacity it first deletes the first key, whether or not
    [text]'s key is already present, then performs [Map.set]; the deleted
    key is no longer retrievable unless [text] has that key. *)
Theorem set_evicts_first_at_capacity {V : Type} (now : Z) (text : string) (e : V)
    (c : Cache.EmbeddingCache V) :
  ((List.length (Cache.cache c) < Cache.maxSize c)%nat ->
   Cache.cache (Cache.set now text e c)
   = Cache.map_set (Cache.getKey text) (Cache.mkCached text e now) (Cache.cache c)) /\
  (forall k0 v0 rest, Cache.cache c = (k0, v0) :: rest ->
   (Cache.maxSize c <= List.length (Cache.cache c))%nat -> k0 <> ""%string ->
   Cache.cache (Cache.set now text e c)
   = Cache.map_set (Cache.getKey text) (Cache.mkCached text e now) rest /\
   (Cache.map_get k0 rest = None -> Cache.getKey text <> k0 ->
    Cache.map_get k0 (Cache.cache (Cache.set now text e c)) = None)).
Proof.
  split.
  - intro Hlt. unfold Cache.set. cbn [Cache.cache].
    destruct (Nat.leb_spec (Cache.maxSize c) (List.length (Cache.cache c))); [lia|].
    reflexivity.
  - intros k0 v0 rest Hc Hle Hk0.
    assert (Hs : Cache.cache (Cache.set now text e c)
                 = Cache.map_set (Cache.getKey text) (Cache.mkCached text e now) rest).
    { unfold Cache.set. cbn [Cache.cache].
      destruct (Nat.leb_spec (Cache.maxSize c) (List.length (Cache.cache c))); [|lia].
      rewrite Hc. cbn [Cache.map_first_key].
      destruct (String.eqb_spec k0 ""); [contradiction|].
      cbn [negb Cache.map_delete]. rewrite String.eqb_refl. reflexivity. }
    split; [exact Hs|].
    intros Hnone Hne. rewrite Hs, map_get_set_other by exact Hne. exact Hnone.
Qed.

Lemma set_evicts_first_at_capacity_witness :
  Cache.map_get (Cache.getKey "a") (Cache.cache (Cache.set 0 "b" [5%Z] cache_ab)) = None.
Proof.
  destruct (set_evicts_first_at_capacity 0 "b" [5%Z] cache_ab) as [_ H].
  apply (H (Cache.getKey "a") (Cache.mkCached "a" [3%Z] 0)
           [(Cache.getKey "b", Cache.mkCached "b" [4%Z] 0)]).
  - vm_compute. reflexivity.
  - vm_compute. lia.
  - apply getKey_nonempty.
  - vm_compute. reflexivity.
  - vm_compute. intro Hk. discriminate Hk.
Defined.

(** C4 fails at capacity when the key is already present: setting "b"
    again in a full cache holding "a" and "b" evicts "a". *)
Lemma set_present_key_evicts_other :
  fst (Cache.get 0 "a" cache_ab) = Some [3%Z] /\
  Cache.map_get (Cache.getKey "b") (Cache.cache cache_ab) <> None /\
  fst (Cache.get 0 "a" (Cache.set 0 "b" [5%Z] cache_ab)) = None.
Proof.
  split; [vm_compute; reflexivity|]. split; [vm_compute; intro H; discriminate H|].
  vm_compute. reflexivity.
Qed.

(** ** C5 *)

(** C5 (as the code does it). When every call succeeds, the retrieval step
    of a chat request checks the collection, embeds the query itself with
    [EmbeddingService.embed] (no cache lookup, no normalization), searches
    with that raw vector under the filter [user_id = userId], and returns
    the [payload.text] of the formatted hits. *)
Theorem retrieval_embeds_raw_query (w : World) (req : Request) (exists_ : bool)
    (v : list Z) (hits : list RawHit) :
  w_qdrant_init w = Ok tt -> w_get_collections w = Ok exists_ ->
  (exists_ = false -> w_create_collection w = Ok tt) ->
  w_embed w (message req) = Ok v ->
  w_search w v (retrieve_limit req) (Some (user_filter (user_id req))) = Ok hits ->
  retrieval_block w req
  = (Ok (map sr_text (map format_hit hits)),
     EvGetCollections :: (if exists_ then [] else [EvCreateCollection]) ++
     [EvEmbed (message req);
      EvVectorSearch v (retrieve_limit req) (Some (user_filter (user_id req)))]).
Proof.
  intros Hq Hg Hc He Hs.
  unfold retrieval_block, searchByUser, search, ensureCollection.
  rewrite Hq, Hg. destruct exists_.
  - cbn [bind lift emit ret]. rewrite He. cbn [bind lift emit ret]. rewrite Hs.
    reflexivity.
  - cbn [bind lift emit ret]. rewrite (Hc eq_refl). cbn [bind lift emit ret].
    rewrite He. cbn [bind lift emit ret]. rewrite Hs. reflexivity.
Qed.

Lemma retrieval_embeds_raw_query_witness :
  retrieval_block world_rag req_rag
  = (Ok ["RAG means retrieval-augmented generation"],
     [EvGetCollections; EvEmbed "What is RAG?";
      EvVectorSearch [3; 4]%Z 3 (Some (user_filter "user-1"))]).
Proof.
  apply (retrieval_embeds_raw_query world_rag req_rag true [3; 4]%Z [doc_hit]);
    [reflexivity | reflexivity | discriminate | reflexivity | reflexivity].
Defined.

(** C5 fails: a chat request with retrieval calls the embedding backend on
    its query and searches with the unnormalized vector [3; 4]%Z (norm 5);
    nothing is looked up in or stored into an [EmbeddingCache], so a
    repeated request calls the backend again. *)
Lemma retrieval_calls_backend_unnormalized :
  filter is_embed (snd (chat world_rag req_rag)) = [EvEmbed "What is RAG?"] /\
  In (EvVectorSearch [3; 4]%Z 3 (Some (user_filter "user-1"))) (snd (chat world_rag req_rag)).
Proof.
  split; [vm_compute; reflexivity|].
  vm_compute. repeat first [left; reflexivity | right].
Qed.

(** ** C6 *)

(** C6. With [autoRetrieve] on, when the retrieval step fails (Qdrant,
    its collection, the embedding backend or the search), the step yields
    no document and the request runs exactly as the same request without
    retrieval, with the failed retrieval calls inserted after the profile
    load: same outcome, same prompt, same LLM call, same response. *)
Theorem retrieval_failure_degrades (w : World) (req : Request) (e : string) :
  validate req = [] -> w_llm_init w = Ok tt -> auto_retrieve req = true ->
  fst (retrieval_block w req) = Err e ->
  retrieve_docs w req = (Ok [], snd (retrieval_block w req)) /\
  fst (chat w req) = fst (chat w (no_rag req)) /\
  exists T, snd (chat w (no_rag req)) = EvLoadUserDetail (user_id req) :: T /\
            snd (chat w req) = EvLoadUserDetail (user_id req) :: snd (retrieval_block w req) ++ T.
Proof.
  intros Hv Hi Ha Hf. split.
  - exact (retrieve_docs_failure w req e Ha Hf).
  - exact (chat_retrieval_failure w req e Hv Hi Ha Hf).
Qed.

Lemma retrieval_failure_degrades_witness :
  fst (retrieval_block world_embed_down req_rag) = Err "embedding backend unavailable" /\
  fst (chat world_embed_down req_rag) = fst (chat world_embed_down (no_rag req_rag)).
Proof.
  split; [reflexivity|].
  apply (retrieval_failure_degrades world_embed_down req_rag "embedding backend unavailable");
    reflexivity.
Defined.

(** ** C7 *)

(** C7 (as the code does it). A request with a valid message and no
    [context] field is rejected by [validateContextArray] with a 400 and
    nothing else happens, in [chat] and in [chatStream]. *)
Theorem omitted_context_rejected (w : World) :
  chat w req_no_context
  = (Ok tt, [EvJson (BodyValidation [mkVErr "context" "context must be an array"])]) /\
  chatStream w req_no_context
  = (Ok tt, [EvJson (BodyValidation [mkVErr "context" "context must be an array"])]).
Proof. split; reflexivity. Qed.

(** ** C8 *)

(** C8. When the LLM stream fails after some chunks, [chatStream] has
    already sent its SSE headers and the chunks; it ends the same stream
    with an SSE error event and [res.end()], writes nothing else to the
    response before the headers, and never persists the history. *)
Theorem stream_failure_on_open_channel (w : World) (req : Request) (chunks : list string)
    (e : string) :
  validate req = [] -> w_llm_init w = Ok tt -> w_debug w = false ->
  (forall ms, w_llm_stream w ms = (chunks, Some e)) ->
  fst (chatStream w req) = Ok tt /\
  (exists pre ms, snd (chatStream w req)
     = pre ++ EvSetHeaders :: EvLlmStream ms :: List.map EvSseChunk chunks ++ [EvSseError e; EvEnd]
   /\ forallb quiet pre = true) /\
  filter is_update (snd (chatStream w req)) = [].
Proof. apply chatStream_stream_failure. Qed.

Lemma stream_failure_on_open_channel_witness :
  validate req_hello = [] /\ w_llm_init world_stream_fail = Ok tt /\
  w_debug world_stream_fail = false /\
  filter is_update (snd (chatStream world_stream_fail req_hello)) = [].
Proof.
  split; [reflexivity|]. split; [reflexivity|]. split; [reflexivity|].
  apply (stream_failure_on_open_channel world_stream_fail req_hello ["Hel"] "network failure");
    [reflexivity | reflexivity | reflexivity | intros; reflexivity].
Defined.

(** ** C9 *)

(** C9. At a fixed instant [now], [smartTrimConversationHistory] with
    [maxMessages = 20] and [hoursToKeep = 24] is idempotent. *)
Theorem smartTrim_idempotent (now : Z) (T : list ConversationMessage) :
  smartTrim now (smartTrim now T) = smartTrim now T.
Proof. unfold smartTrim. apply smartTrim_idem_gen. Qed.

(** ** C10 *)

(** C10. A cache made by [new EmbeddingCache(maxSize, ttlMs)] with
    [maxSize >= 1] never holds more than [maxSize] entries, whatever
    sequence of [get], [set] and [clear] runs on it. *)
Theorem cache_size_bounded {V : Type} (maxSize : nat) (ttlMs : Z)
    (ops : list (Cache.CacheOp V)) :
  (1 <= maxSize)%nat ->
  (List.length (Cache.cache (Cache.run (Cache.new_cache maxSize ttlMs) ops)) <= maxSize)%nat.
Proof.
  intro H.
  destruct (run_inv (Cache.new_cache maxSize ttlMs) ops) as (_ & H2 & _).
  - unfold cache_inv. cbn [Cache.new_cache Cache.cache Cache.maxSize].
    split; [exact H|]. split; [cbn; lia | constructor].
  - rewrite run_maxSize in H2. exact H2.
Qed.

Lemma cache_size_bounded_witness :
  (List.length (Cache.cache (Cache.run (Cache.new_cache 2 1000) cache_ops)) <= 2)%nat.
Proof. apply (cache_size_bounded 2 1000 cache_ops). lia. Defined.

(** * Further properties of the code *)

(** ** Helpers *)





Section CacheFacts.
Context {V : Type}.

Lemma map_get_set_same (k : string) (v : Cache.CachedEmbedding V) (m : Cache.JsMap V) :
  Cache.map_get k (Cache.map_set k v m) = Some v.
Proof.
  induction m as [|[k' v'] m IH]; cbn.
  - rewrite String.eqb_refl. reflexivity.
  - destruct (String.eqb_spec k k') as [->|Hne]; cbn.
    + rewrite String.eqb_refl. reflexivity.
    + apply String.eqb_neq in Hne. rewrite Hne. exact IH.
Qed.

Lemma set_get_same (now : Z) (text : string) (e : V) (c : Cache.EmbeddingCache V) :
  Cache.map_get (Cache.getKey text) (Cache.cache (Cache.set now text e c))
  = Some (Cache.mkCached text e now).
Proof. unfold Cache.set. cbn [Cache.cache]. apply map_get_set_same. Qed.

Lemma get_fresh (now now' : Z) (text : string) (e : V) (c : Cache.EmbeddingCache V) :
  (now' - now <= Cache.ttlMs c)%Z ->
  Cache.get now' text (Cache.set now text e c) = (Some e, Cache.set now text e c).
Proof.
  intro H. unfold Cache.get at 1. rewrite set_get_same.
  cbn [Cache.ce_timestamp Cache.ce_embedding].
  replace (Cache.ttlMs (Cache.set now text e c)) with (Cache.ttlMs c) by reflexivity.
  destruct (Z.ltb_spec (Cache.ttlMs c) (now' - now)); [lia | reflexivity].
Qed.

Lemma map_delete_present_length (k : string) (v : Cache.CachedEmbedding V) (m : Cache.JsMap V) :
  Cache.map_get k m = Some v ->
  List.length (Cache.map_delete k m) = (List.length m - 1)%nat.
Proof.
  induction m as [|[k' v'] m IH]; cbn; [discriminate|].
  destruct (String.eqb k k'); intro H; [lia|].
  cbn [List.length]. rewrite (IH H). destruct m; cbn in H |- *; [discriminate | lia].
Qed.

Lemma map_set_keys_present (k : string) (v : Cache.CachedEmbedding V) (m : Cache.JsMap V) :
  Cache.map_get k m <> None -> List.map fst (Cache.map_set k v m) = List.map fst m.
Proof.
  induction m as [|[k' v'] m IH]; cbn; [congruence|].
  destruct (String.eqb_spec k k') as [->|Hne]; intro H; cbn; [reflexivity|].
  rewrite (IH H). reflexivity.
Qed.

Lemma get_hit_unchanged (now : Z) (text : string) (e : V) (c : Cache.EmbeddingCache V) :
  fst (Cache.get now text c) = Some e -> snd (Cache.get now text c) = c.
Proof.
  unfold Cache.get. destruct (Cache.map_get _ _) as [ce|]; [|reflexivity].
  destruct (_ <? _)%Z; [discriminate | reflexivity].
Qed.

End CacheFacts.

(** ** History trimming (utils/embedding.ts) *)

(** X1. With [maxMessages >= 1], [smartTrimConversationHistory] returns a
    suffix of the turns that pass the age filter, of at most [maxMessages]
    turns and at most [MAX_HISTORY_CHARS] characters. *)
Theorem smartTrim_window (now hours : Z) (h : list ConversationMessage) (maxMessages : nat) :
  (1 <= maxMessages)%nat ->
  exists k, smartTrimConversationHistory now h maxMessages hours
            = skipn k (trimByAge now h hours) /\
    (List.length (smartTrimConversationHistory now h maxMessages hours) <= maxMessages)%nat /\
    (chars_sum (smartTrimConversationHistory now h maxMessages hours) <= MAX_HISTORY_CHARS)%Z.
Proof.
  intro Hm. unfold smartTrimConversationHistory.
  set (L := trimByAge now h hours).
  destruct (trimToLastN_suffix L maxMessages) as (j & Hj & Hlen).
  destruct (trimConversationHistory_suffix (trimToLastN L maxMessages)) as (k & Hk & Hc & _).
  rewrite Hk. exists (k + j)%nat. split; [|split].
  - rewrite Hj, skipn_skipn. reflexivity.
  - rewrite length_skipn. destruct Hlen as [Hlen|Hlen]; lia.
  - exact Hc.
Qed.

Lemma smartTrim_window_witness :
  exists k, smartTrimConversationHistory now0 hist12 5 24 = skipn k (trimByAge now0 hist12 24) /\
    (List.length (smartTrimConversationHistory now0 hist12 5 24) <= 5)%nat /\
    (chars_sum (smartTrimConversationHistory now0 hist12 5 24) <= MAX_HISTORY_CHARS)%Z.
Proof. apply (smartTrim_window now0 24 hist12 5). lia. Defined.


(** X3. If the most recent turn alone exceeds [MAX_HISTORY_CHARS]
    characters, [trimConversationHistory] returns no turn at all, however
    short the earlier turns are. *)
Theorem trim_drops_all_after_long_last (h : list ConversationMessage) (m : ConversationMessage) :
  (MAX_HISTORY_CHARS < messageChars m)%Z ->
  trimConversationHistory (h ++ [m]) = [].
Proof.
  intro Hm.
  assert (E : trimConversationHistory (h ++ [m]) = trim_loop (rev (h ++ [m])) 0 []).
  { destruct h; reflexivity. }
  rewrite E, rev_app_distr. cbn [rev app trim_loop].
  destruct (Z.ltb_spec MAX_HISTORY_CHARS (0 + messageChars m)); [reflexivity | lia].
Qed.

Lemma trim_drops_all_after_long_last_witness :
  (MAX_HISTORY_CHARS < messageChars (mkMsg User (str_repeat 32000 "a") TsUndef))%Z /\
  trimConversationHistory (hist12 ++ [mkMsg User (str_repeat 32000 "a") TsUndef]) = [].
Proof.
  assert (H : (MAX_HISTORY_CHARS < messageChars (mkMsg User (str_repeat 32000 "a") TsUndef))%Z)
    by (vm_compute; reflexivity).
  split; [exact H | apply (trim_drops_all_after_long_last hist12 _ H)].
Defined.

(** X4. [trimByAge] never keeps a turn whose timestamp is a
    [toISOString()] string, whatever [now] and [hoursToKeep] are, and it
    always keeps a turn that has no timestamp. *)
Theorem trimByAge_iso_and_unstamped (now hours : Z) (h : list ConversationMessage) :
  (forall m, In m (trimByAge now h hours) -> forall t, ts m <> TsStr (to_iso_string t)) /\
  (forall m, In m h -> ts m = TsUndef -> In m (trimByAge now h hours)).
Proof.
  unfold trimByAge. split.
  - intros m Hin t Ht. apply filter_In in Hin as [_ Hf].
    rewrite Ht, iso_truthy in Hf. cbn [ts_gt] in Hf. rewrite iso_to_number_nan in Hf.
    discriminate.
  - intros m Hin Ht. apply filter_In. split; [exact Hin|]. rewrite Ht. reflexivity.
Qed.

Lemma trimByAge_iso_and_unstamped_witness :
  In (mkMsg User "1" TsUndef) (trimByAge now0 hist12 24).
Proof.
  apply (proj2 (trimByAge_iso_and_unstamped now0 24 hist12)); [|reflexivity].
  vm_compute. left. reflexivity.
Defined.

(** ** Request validation (middleware/rateLimiting.ts) *)





(** ** The embedding cache (utils/embedding.ts) *)

(** X9. Once [set(text1, e)] has run at time [now], [get(text2)] at time
    [now'] returns [e] whenever [text2] has the same cache key as [text1]
    and [now' - now <= ttlMs]; the key only hashes the text, so a different
    text with a colliding key (such as "Aa" and "BB") gets [e] too. *)
Theorem get_after_set {V : Type} (now now' : Z) (text1 text2 : string) (e : V)
    (c : Cache.EmbeddingCache V) :
  Cache.getKey text1 = Cache.getKey text2 -> (now' - now <= Cache.ttlMs c)%Z ->
  fst (Cache.get now' text2 (Cache.set now text1 e c)) = Some e.
Proof.
  intros Hk Ht. unfold Cache.get at 1. rewrite <- Hk, set_get_same.
  cbn [Cache.ce_timestamp Cache.ce_embedding].
  replace (Cache.ttlMs (Cache.set now text1 e c)) with (Cache.ttlMs c) by reflexivity.
  destruct (Z.ltb_spec (Cache.ttlMs c) (now' - now)); [lia | reflexivity].
Qed.

Lemma get_after_set_witness :
  "Aa"%string <> "BB"%string /\
  fst (Cache.get 500 "BB" (Cache.set 0 "Aa" [7%Z] (Cache.new_cache 1000 1000))) = Some [7%Z].
Proof.
  split; [discriminate|].
  apply (get_after_set 0 500 "Aa" "BB" [7%Z] (Cache.new_cache 1000 1000));
    [vm_compute; reflexivity | vm_compute; discriminate].
Defined.

(** X10. A [get] that finds an entry older than [ttlMs] answers a miss and
    deletes that entry: the cache shrinks by exactly one. *)
Theorem get_expired_deletes {V : Type} (now : Z) (text : string)
    (c : Cache.EmbeddingCache V) (ce : Cache.CachedEmbedding V) :
  Cache.map_get (Cache.getKey text) (Cache.cache c) = Some ce ->
  (Cache.ttlMs c < now - Cache.ce_timestamp ce)%Z ->
  fst (Cache.get now text c) = None /\
  List.length (Cache.cache (snd (Cache.get now text c))) = (List.length (Cache.cache c) - 1)%nat.
Proof.
  intros Hg Ht. unfold Cache.get. rewrite Hg.
  destruct (Z.ltb_spec (Cache.ttlMs c) (now - Cache.ce_timestamp ce)); [|lia].
  split; [reflexivity|]. cbn [snd Cache.cache].
  exact (map_delete_present_length _ _ _ Hg).
Qed.

Lemma get_expired_deletes_witness :
  fst (Cache.get 5000 "a" cache_ab) = None /\
  List.length (Cache.cache (snd (Cache.get 5000 "a" cache_ab))) = 1%nat.
Proof.
  apply (get_expired_deletes 5000 "a" cache_ab (Cache.mkCached "a" [3%Z] 0));
    vm_compute; reflexivity.
Defined.

(** X11. The cache evicts in insertion order, not by use: a [get] that hits
    changes nothing, and a [set] on a key already present (below capacity)
    leaves the key order as it was. *)
Theorem cache_fifo_not_lru {V : Type} (now now' : Z) (text text' : string) (e e' : V)
    (c : Cache.EmbeddingCache V) :
  (fst (Cache.get now text c) = Some e -> snd (Cache.get now text c) = c) /\
  (Cache.map_get (Cache.getKey text') (Cache.cache c) <> None ->
   (List.length (Cache.cache c) < Cache.maxSize c)%nat ->
   List.map fst (Cache.cache (Cache.set now' text' e' c)) = List.map fst (Cache.cache c)).
Proof.
  split; [apply get_hit_unchanged|].
  intros Hp Hl. unfold Cache.set. cbn [Cache.cache].
  destruct (Nat.leb_spec (Cache.maxSize c) (List.length (Cache.cache c))); [lia|].
  apply map_set_keys_present, Hp.
Qed.

Lemma cache_fifo_not_lru_witness :
  snd (Cache.get 10 "a" (Cache.set 0 "a" [3%Z] (Cache.new_cache 2 1000)))
    = Cache.set 0 "a" [3%Z] (Cache.new_cache 2 1000) /\
  List.map fst (Cache.cache (Cache.set 20 "a" [9%Z] (Cache.set 0 "a" [3%Z] (Cache.new_cache 2 1000))))
    = List.map fst (Cache.cache (Cache.set 0 "a" [3%Z] (Cache.new_cache 2 1000))).
Proof.
  destruct (cache_fifo_not_lru 10 20 "a" "a" [3%Z] [9%Z]
              (Cache.set 0 "a" [3%Z] (Cache.new_cache 2 1000))) as [H1 H2].
  split; [apply H1; vm_compute; reflexivity | apply H2; vm_compute; [discriminate | lia]].
Defined.

(** ** The chat prompt (controllers/chatController.ts) *)



(** ** The embedding endpoint (controllers/chatController.ts) *)

Section EmbedFacts.
Import EmbedApi.

Lemma sbind_keeps {A B} (m : SM A) (f : A -> SM B) :
  (forall c, snd (m c) = c) -> (forall a c, snd (f a c) = c) ->
  forall c, snd (sbind m f c) = c.
Proof.
  intros Hm Hf c. unfold sbind. specialize (Hm c).
  destruct (m c) as [[[a|e] evs] c'] eqn:E; cbn in Hm |- *; subst c'; [|reflexivity].
  specialize (Hf a c). destruct (f a c) as [[r evs'] c''] eqn:F. exact Hf.
Qed.

Lemma sbind_events {A B} (m : SM A) (f : A -> SM B) (c : ECache) (x : EmbedEvent) :
  In x (snd (fst (sbind m f c))) ->
  In x (snd (fst (m c))) \/ exists a c', In x (snd (fst (f a c'))).
Proof.
  unfold sbind. destruct (m c) as [[[a|e] evs] c'] eqn:E; cbn; [|left; exact H].
  destruct (f a c') as [[r evs'] c''] eqn:F. cbn. intro H.
  apply in_app_or in H as [H|H]; [left; exact H | right; exists a, c'; rewrite F; exact H].
Qed.


Lemma get_ttlMs {V : Type} (now : Z) (t : string) (c : Cache.EmbeddingCache V) :
  Cache.ttlMs (snd (Cache.get now t c)) = Cache.ttlMs c.
Proof.
  unfold Cache.get. destruct (Cache.map_get _ _); [|reflexivity].
  destruct (_ <? _)%Z; reflexivity.
Qed.

Lemma embed_one_on (w : EmbedWorld) (t : string) (c : ECache) :
  embed_one w true t c =
  match Cache.get (ew_now w) t c with
  | (Some e, c1) => (Ok e, [], c1)
  | (None, c1) =>
      match ew_embed w t with
      | Ok v => (Ok (ew_normalize w v), [EEEmbed t],
                 Cache.set (ew_now w) t (ew_normalize w v) c1)
      | Err err => (Err err, [EEEmbed t], c1)
      end
  end.
Proof.
  unfold embed_one, sbind, cache_get, cache_set, sret, semit, slift.
  destruct (Cache.get (ew_now w) t c) as [[e|] c1]; [reflexivity|].
  destruct (ew_embed w t); reflexivity.
Qed.

Lemma embed_one_off (w : EmbedWorld) (t : string) (c : ECache) :
  embed_one w false t c =
  match ew_embed w t with
  | Ok v => (Ok (ew_normalize w v), [EEEmbed t], c)
  | Err err => (Err err, [EEEmbed t], c)
  end.
Proof.
  unfold embed_one, sbind, sret, semit, slift. destruct (ew_embed w t); reflexivity.
Qed.

Lemma embed_one_keeps_off (w : EmbedWorld) (t : string) (c : ECache) :
  snd (embed_one w false t c) = c.
Proof. rewrite embed_one_off. destruct (ew_embed w t); reflexivity. Qed.

Lemma embed_all_keeps_off (w : EmbedWorld) (ts : list string) (c : ECache) :
  snd (embed_all w false ts c) = c.
Proof.
  revert c. induction ts as [|t ts IH]; intro c; [reflexivity|].
  cbn [embed_all]. apply sbind_keeps; [apply embed_one_keeps_off|].
  intros e. apply sbind_keeps; [exact IH | reflexivity].
Qed.

Lemma embed_one_events (w : EmbedWorld) (on : bool) (t : string) (c : ECache) (x : EmbedEvent) :
  In x (snd (fst (embed_one w on t c))) -> x = EEEmbed t.
Proof.
  destruct on; [rewrite embed_one_on | rewrite embed_one_off].
  - destruct (Cache.get _ _ _) as [[e|] c1]; [intros []|].
    destruct (ew_embed w t); intros [H|[]]; congruence.
  - destruct (ew_embed w t); intros [H|[]]; congruence.
Qed.

Lemma embed_all_events (w : EmbedWorld) (on : bool) (ts : list string) (c : ECache)
    (x : EmbedEvent) :
  In x (snd (fst (embed_all w on ts c))) -> is_backend_embed x = true.
Proof.
  revert c. induction ts as [|t ts IH]; intro c; cbn [embed_all]; [intros []|].
  intro H. apply sbind_events in H as [H|(e & c1 & H)].
  - rewrite (embed_one_events _ _ _ _ _ H). reflexivity.
  - apply sbind_events in H as [H|(es & c2 & [])]. exact (IH _ H).
Qed.

Lemma embed_body_responds (w : EmbedWorld) (req : EmbedRequest) (c : ECache)
    (st : Z) (b : EmbedBody) :
  In (EERespond st b) (snd (fst (embed_body w req c))) -> st = 200%Z.
Proof.
  unfold embed_body. intro H.
  apply sbind_events in H as [[H|[]]|(u & c1 & H)]; [discriminate|].
  apply sbind_events in H as [[]|(u' & c2 & H)].
  destruct (truthy (e_text req)); [destruct (e_text req) | destruct (e_texts req)];
    try contradiction;
    apply sbind_events in H as [H|(e & c3 & [H|[]])]; try (injection H; intros; lia).
  - apply embed_one_events in H. discriminate.
  - apply embed_all_events in H. discriminate.
Qed.

Lemma response_in (evs : list EmbedEvent) (st : Z) (b : EmbedBody) :
  response evs = Some (st, b) -> In (EERespond st b) evs.
Proof.
  induction evs as [|e evs IH]; cbn; [discriminate|].
  destruct e; intro H; try (right; exact (IH H)).
  injection H as -> ->. left. reflexivity.
Qed.

Lemma validated_text_nonempty (t : string) :
  validateEmbeddingText (VStr t) = [] -> truthy (VStr t) = true.
Proof. destruct t; [discriminate | reflexivity]. Qed.

(** [generateEmbedding] on a valid single text once the service is built. *)
Lemma generate_single (w : EmbedWorld) (u t : string) (texts uc : value) (c : ECache) :
  validateEmbeddingText (VStr t) = [] -> ew_service_init w = Ok tt ->
  generateEmbedding w (mkEmbedRequest u (VStr t) texts uc) c =
  match embed_one w (cache_enabled uc) t c with
  | (Ok e, evs, c1) => (Ok tt, EELoadUserDetail u :: evs ++ [EERespond 200 (EBEmbedding e)], c1)
  | (Err err, evs, c1) =>
      (Ok tt, (EELoadUserDetail u :: evs) ++ [EERespond 500 (EBError (message_or err "embedding failed"))], c1)
  end.
Proof.
  intros Hv Hs. pose proof (validated_text_nonempty t Hv) as Ht.
  unfold generateEmbedding, stry. cbn [e_text e_texts e_use_cache]. rewrite Ht, Hv.
  unfold embed_body, sbind, semit, slift. cbn [e_text e_user e_use_cache]. rewrite Hs, Ht.
  destruct (embed_one w (cache_enabled uc) t c) as [[[e|err] evs] c1]; reflexivity.
Qed.


End EmbedFacts.

(** X13. The embedding cache is shared by all users and keyed by the text
    alone: after a request of one user misses the cache and computes [v]
    from the backend, a request of any user (in any later world whose
    embedding service builds) for the same text within [ttlMs] makes no
    backend call and answers 200 with the first user's vector. *)
Theorem embedding_cache_shared (w1 w2 : EmbedApi.EmbedWorld) (u1 u2 t : string)
    (x1 x2 uc1 uc2 : EmbedApi.value) (v : list Z) (c : EmbedApi.ECache) :
  EmbedApi.validateEmbeddingText (EmbedApi.VStr t) = [] ->
  EmbedApi.cache_enabled uc1 = true -> EmbedApi.cache_enabled uc2 = true ->
  EmbedApi.ew_service_init w1 = Ok tt -> EmbedApi.ew_service_init w2 = Ok tt ->
  fst (Cache.get (EmbedApi.ew_now w1) t c) = None ->
  EmbedApi.ew_embed w1 t = Ok v ->
  (EmbedApi.ew_now w2 - EmbedApi.ew_now w1 <= Cache.ttlMs c)%Z ->
  let r1 := EmbedApi.generateEmbedding w1 (EmbedApi.mkEmbedRequest u1 (EmbedApi.VStr t) x1 uc1) c in
  let r2 := EmbedApi.generateEmbedding w2 (EmbedApi.mkEmbedRequest u2 (EmbedApi.VStr t) x2 uc2)
              (snd r1) in
  filter EmbedApi.is_backend_embed (snd (fst r1)) = [EmbedApi.EEEmbed t] /\
  filter EmbedApi.is_backend_embed (snd (fst r2)) = [] /\
  EmbedApi.response (snd (fst r2))
    = Some (200%Z, EmbedApi.EBEmbedding (EmbedApi.ew_normalize w1 v)).
Proof.
  intros Hv Hc1 Hc2 Hs1 Hs2 Hmiss He Ht r1 r2. subst r1 r2.
  rewrite (generate_single w1 u1 t x1 uc1 c Hv Hs1), Hc1, embed_one_on.
  pose proof (get_ttlMs (EmbedApi.ew_now w1) t c) as Httl.
  destruct (Cache.get (EmbedApi.ew_now w1) t c) as [[e0|] c0] eqn:G;
    cbn [fst] in Hmiss; [discriminate|].
  cbn [snd] in Httl. rewrite He. cbn [snd fst].
  rewrite (generate_single w2 u2 t x2 uc2 _ Hv Hs2), Hc2, embed_one_on.
  rewrite get_fresh by (rewrite Httl; exact Ht).
  cbn. split; [|split]; reflexivity.
Qed.

Lemma embedding_cache_shared_witness :
  let w := EmbedApi.mkEmbedWorld now0 (Ok tt) (fun _ => Ok [3%Z; 4%Z]) (fun v => v) in
  let r1 := EmbedApi.generateEmbedding w
              (EmbedApi.mkEmbedRequest "alice" (EmbedApi.VStr "hello") EmbedApi.VUndef EmbedApi.VUndef)
              (Cache.new_cache 1000 86400000) in
  let r2 := EmbedApi.generateEmbedding w
              (EmbedApi.mkEmbedRequest "bob" (EmbedApi.VStr "hello") EmbedApi.VUndef EmbedApi.VUndef)
              (snd r1) in
  filter EmbedApi.is_backend_embed (snd (fst r1)) = [EmbedApi.EEEmbed "hello"] /\
  filter EmbedApi.is_backend_embed (snd (fst r2)) = [] /\
  EmbedApi.response (snd (fst r2)) = Some (200%Z, EmbedApi.EBEmbedding [3%Z; 4%Z]).
Proof.
  cbv zeta.
  refine (embedding_cache_shared _ _ "alice" "bob" "hello" _ _ _ _ [3%Z; 4%Z] _
            _ _ _ _ _ _ _ _); vm_compute; solve [reflexivity | intro; discriminate].
Defined.

(** X14. With [use_cache: false] a request never reads or writes the
    embedding cache, whatever it asks; a valid single text then goes to the
    backend exactly once. *)
Theorem embedding_no_cache (w : EmbedApi.EmbedWorld) (u : string) (text texts : EmbedApi.value)
    (c : EmbedApi.ECache) :
  snd (EmbedApi.generateEmbedding w (EmbedApi.mkEmbedRequest u text texts (EmbedApi.VBool false)) c) = c /\
  (forall t, text = EmbedApi.VStr t -> EmbedApi.validateEmbeddingText text = [] ->
   EmbedApi.ew_service_init w = Ok tt ->
   filter EmbedApi.is_backend_embed
     (snd (fst (EmbedApi.generateEmbedding w (EmbedApi.mkEmbedRequest u text texts (EmbedApi.VBool false)) c)))
   = [EmbedApi.EEEmbed t]).
Proof.
  split.
  - unfold EmbedApi.generateEmbedding, EmbedApi.stry.
    set (req := EmbedApi.mkEmbedRequest u text texts (EmbedApi.VBool false)).
    assert (Hb : snd (EmbedApi.embed_body w req c) = c).
    { unfold EmbedApi.embed_body.
      apply sbind_keeps; [reflexivity|]. intros [] c1.
      apply sbind_keeps; [reflexivity|]. intros [] c2.
      cbn [EmbedApi.e_use_cache req EmbedApi.cache_enabled EmbedApi.e_text EmbedApi.e_texts].
      destruct (EmbedApi.truthy text); [destruct text | destruct texts]; try reflexivity.
      - apply sbind_keeps; [apply embed_one_keeps_off | reflexivity].
      - apply sbind_keeps; [apply embed_all_keeps_off | reflexivity]. }
    cbn [EmbedApi.e_text EmbedApi.e_texts req].
    destruct (EmbedApi.truthy text);
      [destruct (EmbedApi.validateEmbeddingText text) |
       destruct (EmbedApi.truthy texts); [destruct (EmbedApi.validateEmbeddingBatch texts)|]];
      try reflexivity;
      destruct (EmbedApi.embed_body w req c) as [[[[]|err] evs] c1] eqn:E; cbn in Hb |- *;
      exact Hb.
  - intros t -> Hv Hs.
    rewrite (generate_single w u t texts _ c Hv Hs). cbn [EmbedApi.cache_enabled].
    rewrite embed_one_off. destruct (EmbedApi.ew_embed w t); reflexivity.
Qed.

Lemma embedding_no_cache_witness :
  filter EmbedApi.is_backend_embed
    (snd (fst (EmbedApi.generateEmbedding
                 (EmbedApi.mkEmbedWorld now0 (Ok tt) (fun _ => Ok [3%Z; 4%Z]) (fun v => v))
                 (EmbedApi.mkEmbedRequest "alice" (EmbedApi.VStr "hello") EmbedApi.VUndef
                    (EmbedApi.VBool false))
                 (Cache.set now0 "hello" [1%Z] (Cache.new_cache 1000 86400000)))))
  = [EmbedApi.EEEmbed "hello"].
Proof.
  apply (proj2 (embedding_no_cache _ "alice" (EmbedApi.VStr "hello") EmbedApi.VUndef _) "hello");
    vm_compute; reflexivity.
Defined.



(** X16. A request that [/embed] answers with status 400 did nothing else:
    the 400 response is its only event (no profile load, no backend call)
    and the embedding cache is unchanged. *)
Theorem embedding_400_untouched (w : EmbedApi.EmbedWorld) (req : EmbedApi.EmbedRequest)
    (c : EmbedApi.ECache) (b : EmbedApi.EmbedBody) :
  EmbedApi.response (snd (fst (EmbedApi.generateEmbedding w req c))) = Some (400%Z, b) ->
  snd (fst (EmbedApi.generateEmbedding w req c)) = [EmbedApi.EERespond 400 b] /\
  snd (EmbedApi.generateEmbedding w req c) = c.
Proof.
  unfold EmbedApi.generateEmbedding, EmbedApi.stry.
  assert (Hbody : forall r evs c1,
             EmbedApi.embed_body w req c = (r, evs, c1) ->
             forall evs', EmbedApi.response (evs ++ evs') = Some (400%Z, b) ->
             (forall st b', In (EmbedApi.EERespond st b') evs' -> st = 500%Z) -> False).
  { intros r evs c1 E evs' H Hh. apply response_in, in_app_or in H as [H|H].
    - pose proof (embed_body_responds w req c 400 b) as Hr. rewrite E in Hr.
      specialize (Hr H). discriminate.
    - specialize (Hh _ _ H). discriminate. }
  destruct (EmbedApi.truthy (EmbedApi.e_text req));
    [destruct (EmbedApi.validateEmbeddingText (EmbedApi.e_text req)) as [|err errs] |
     destruct (EmbedApi.truthy (EmbedApi.e_texts req));
       [destruct (EmbedApi.validateEmbeddingBatch (EmbedApi.e_texts req)) as [|err errs]|]];
    try (cbn; intro H; injection H as <-; split; reflexivity).
  all: destruct (EmbedApi.embed_body w req c) as [[[[]|e] evs] c1] eqn:E; cbn [fst snd].
  all: intro H; exfalso.
  1, 3: apply (Hbody _ _ _ eq_refl []); [rewrite app_nil_r; exact H | intros st b' []].
  all: apply (Hbody _ _ _ eq_refl _ H); intros st b' [Hx|[]]; injection Hx; intros; lia.
Qed.

Lemma embedding_400_untouched_witness :
  let req := EmbedApi.mkEmbedRequest "alice" EmbedApi.VUndef (EmbedApi.VStrs []) EmbedApi.VUndef in
  let w := EmbedApi.mkEmbedWorld now0 (Ok tt) (fun _ => Ok [3%Z; 4%Z]) (fun v => v) in
  snd (fst (EmbedApi.generateEmbedding w req (Cache.new_cache 1000 86400000)))
    = [EmbedApi.EERespond 400 (EmbedApi.EBValidation
                                 [mkVErr "texts" "texts array cannot be empty"])] /\
  snd (EmbedApi.generateEmbedding w req (Cache.new_cache 1000 86400000))
    = Cache.new_cache 1000 86400000.
Proof.
  cbv zeta. apply embedding_400_untouched. vm_compute. reflexivity.
Defined.

(** ** The document endpoints (controllers/chatController.ts, services/qdrant.ts) *)

Import Docs.

Lemma obj_get_set (k k' : string) (v : json) (o : obj) :
  obj_get k (obj_set k' v o) = if String.eqb k k' then Some v else obj_get k o.
Proof.
  induction o as [|[k0 v0] o IH]; cbn.
  - destruct (String.eqb k k'); reflexivity.
  - destruct (String.eqb_spec k' k0) as [->|Hne]; cbn.
    + destruct (String.eqb k k0); reflexivity.
    + rewrite IH. destruct (String.eqb_spec k k0) as [->|]; [|reflexivity].
      destruct (String.eqb_spec k0 k') as [->|]; [congruence | reflexivity].
Qed.

Lemma obj_set_keys (k k' : string) (v : json) (o : obj) :
  In k (List.map fst (obj_set k' v o)) <-> k' = k \/ In k (List.map fst o).
Proof.
  induction o as [|[k0 v0] o IH]; cbn; [tauto|].
  destruct (String.eqb_spec k' k0) as [->|Hne]; cbn; [tauto|]. rewrite IH. tauto.
Qed.

Lemma obj_set_nodup (k : string) (v : json) (o : obj) :
  NoDup (List.map fst o) -> NoDup (List.map fst (obj_set k v o)).
Proof.
  induction o as [|[k0 v0] o IH]; cbn; intro H.
  - constructor; [intros [] | constructor].
  - inversion H as [|? ? Hn Hd]; subst.
    destruct (String.eqb_spec k k0) as [->|Hne]; cbn; [constructor; assumption|].
    constructor; [|exact (IH Hd)].
    rewrite obj_set_keys. intros [->|Hin]; [congruence | exact (Hn Hin)].
Qed.

Lemma obj_assign_nodup (t src : obj) :
  NoDup (List.map fst t) -> NoDup (List.map fst (obj_assign t src)).
Proof.
  unfold obj_assign. revert t. induction src as [|[k v] src IH]; intros t H; cbn; [exact H|].
  apply IH, obj_set_nodup, H.
Qed.

Lemma obj_get_absent (k : string) (o : obj) :
  ~ In k (List.map fst o) -> obj_get k o = None.
Proof.
  induction o as [|[k0 v0] o IH]; cbn; intro H; [reflexivity|].
  destruct (String.eqb_spec k k0) as [->|]; [tauto|]. apply IH. tauto.
Qed.

(** [Object.assign]-like copying: with no duplicate keys in [src], a key
    of [src] wins over the target's. *)
Lemma obj_assign_get (k : string) (t src : obj) :
  NoDup (List.map fst src) ->
  obj_get k (obj_assign t src) = match obj_get k src with Some v => Some v | None => obj_get k t end.
Proof.
  unfold obj_assign. revert t. induction src as [|[k0 v0] src IH]; intros t H; cbn; [reflexivity|].
  inversion H as [|? ? Hn Hd]; subst.
  rewrite (IH _ Hd), obj_get_set.
  destruct (String.eqb_spec k k0) as [->|]; [|reflexivity].
  rewrite (obj_get_absent _ _ Hn). reflexivity.
Qed.

(** The metadata both controllers build: [{ ...m, user_id, created_at }]. *)
Lemma owner_metadata (u : string) (t : json) (m : option json) :
  let md := obj_set "created_at" t (obj_set "user_id" (JString u) (obj_assign [] (own_props m))) in
  NoDup (List.map fst md) /\ obj_get "user_id" md = Some (JString u).
Proof.
  cbn zeta. split.
  - apply obj_set_nodup, obj_set_nodup, obj_assign_nodup. constructor.
  - rewrite !obj_get_set. reflexivity.
Qed.

Lemma dbind_events {A B} (m : DM A) (f : A -> DM B) (x : DocEvent) :
  In x (snd (dbind m f)) -> In x (snd m) \/ exists a, fst m = Ok a /\ In x (snd (f a)).
Proof.
  unfold dbind. destruct m as [[a|e] evs]; cbn; [|intro H; left; exact H].
  destruct (f a) as [r evs'] eqn:F. cbn. intro H.
  apply in_app_or in H as [H|H]; [left; exact H | right; exists a; rewrite F; auto].
Qed.

Lemma dtry_events {A} (m : DM A) (h : string -> DM A) (x : DocEvent) :
  In x (snd (dtry m h)) -> In x (snd m) \/ exists e, In x (snd (h e)).
Proof.
  unfold dtry. destruct m as [[a|e] evs]; cbn; [left; exact H|].
  destruct (h e) as [r evs'] eqn:F. cbn. intro H.
  apply in_app_or in H as [H|H]; [left; exact H | right; exists e; rewrite F; exact H].
Qed.

Lemma upserted_in (p : Point) (evs : list DocEvent) :
  In p (upserted evs) -> exists pts, In (DUpsert pts) evs /\ In p pts.
Proof.
  induction evs as [|e evs IH]; cbn; [intros []|].
  destruct e; intro H; try (destruct (IH H) as (pts & H1 & H2); exists pts; auto).
  apply in_app_or in H as [H|H]; [exists points; auto|].
  destruct (IH H) as (pts & H1 & H2); exists pts; auto.
Qed.

Ltac ev_split H :=
  repeat match type of H with
  | In _ (snd (dbind _ _)) => apply dbind_events in H as [H|[? [?Hm H]]]
  | In _ (snd (dtry _ _)) => apply dtry_events in H as [H|[? H]]
  | In _ (snd (demit _)) => destruct H as [H|[]]
  | In _ (snd (dlift _)) => destruct H
  | In _ (snd (dret _)) => destruct H
  | In _ (snd (respond _ _)) => destruct H as [H|[]]
  | In _ (snd (if ?b then _ else _)) => destruct b
  | In _ (snd _) => progress (cbv beta zeta in H)
  end.

Lemma ensureCollection_events (w : DocWorld) (x : DocEvent) :
  In x (snd (ensureCollection w)) -> x = DGetCollections \/ x = DCreateCollection.
Proof.
  unfold ensureCollection. intro H. ev_split H; auto.
Qed.

Lemma storeDocument_upsert (w : DocWorld) (id text : json) (metadata : option json)
    (pts : list Point) :
  In (DUpsert pts) (snd (storeDocument w id text metadata)) ->
  exists e, pts = [mkPoint id (Some e) (single_payload text metadata)].
Proof.
  unfold storeDocument. intro H. ev_split H; try discriminate.
  - apply ensureCollection_events in H as [H|H]; discriminate.
  - injection H as <-. eexists; reflexivity.
Qed.

Lemma batch_points_in (docs : list BatchDoc) (embs : list (list Z)) (i : nat) (p : Point) :
  In p (batch_points docs embs i) ->
  exists d, In d docs /\ pt_id p = bd_id d /\ pt_payload p = batch_payload (bd_text d) (bd_metadata d).
Proof.
  revert i. induction docs as [|d docs IH]; intros i; cbn; [intros []|].
  intros [<-|H]; [exists d; auto|].
  destruct (IH _ H) as (d' & H1 & H2); exists d'; auto.
Qed.

Lemma storeBatch_upsert (w : DocWorld) (docs : list BatchDoc) (pts : list Point) :
  In (DUpsert pts) (snd (storeBatch w docs)) ->
  exists embs, pts = batch_points docs embs 0.
Proof.
  unfold storeBatch. intro H. ev_split H; try discriminate.
  - apply ensureCollection_events in H as [H|H]; discriminate.
  - injection H as <-. eexists; reflexivity.
Qed.

Lemma prepare_docs_owner (u : string) (now : nat -> Z) (k : nat) (docs : list json)
    (ps : list BatchDoc) (d : BatchDoc) :
  prepare_docs u now k docs = Ok ps -> In d ps ->
  exists md, bd_metadata d = Some (JObject md) /\ NoDup (List.map fst md) /\
    obj_get "user_id" md = Some (JString u).
Proof.
  revert k ps. induction docs as [|doc docs IH]; intros k ps; cbn [prepare_docs].
  - intro H. injection H as <-. intros [].
  - destruct (member doc "id") as [id|e]; [|discriminate].
    destruct (member doc "text") as [text|e]; [|discriminate].
    destruct (member doc "metadata") as [m|e]; [|discriminate].
    destruct (prepare_docs u now (S k) docs) as [rest|e] eqn:E; [|discriminate].
    intro H. injection H as <-. intros [<-|Hin]; [|exact (IH _ _ E Hin)].
    cbn [bd_metadata]. eexists; split; [reflexivity|]. apply owner_metadata.
Qed.

Lemma prepare_docs_ids (u : string) (now : nat -> Z) (k : nat) (docs : list json)
    (ps : list BatchDoc) :
  prepare_docs u now k docs = Ok ps ->
  forallb (fun d => match member d "id" with Ok v => negb (truthy v) | Err _ => false end) docs = true ->
  List.map bd_id ps = List.map (fun i => JString (batch_id u (now i) i)) (seq k (List.length docs)).
Proof.
  revert k ps. induction docs as [|doc docs IH]; intros k ps; cbn [prepare_docs].
  - intros H _. injection H as <-. reflexivity.
  - destruct (member doc "id") as [id|e] eqn:Eid; [|discriminate].
    destruct (member doc "text") as [text|e]; [|discriminate].
    destruct (member doc "metadata") as [m|e]; [|discriminate].
    destruct (prepare_docs u now (S k) docs) as [rest|e] eqn:E; [|discriminate].
    intros H Hf. injection H as <-. apply andb_prop in Hf as [Hid Hf]. rewrite Eid in Hid.
    cbn [List.map bd_id]. rewrite (IH _ _ E Hf).
    destruct id as [v|]; [|reflexivity]. cbv beta iota in Hid. unfold truthy in Hid.
    destruct v; cbv beta iota in Hid |- *; cbv beta iota delta [negb] in Hid;
      try discriminate Hid; try reflexivity;
      repeat match goal with
             | |- context [Z.eqb ?z 0] => destruct (Z.eqb z 0)
             | |- context [String.eqb ?s0 ""] => destruct (String.eqb s0 "")
             | |- context [if ?b then _ else _] => is_var b; destruct b
             end;
      solve [cbv in Hid; discriminate Hid | reflexivity].
Qed.

Lemma string_app_cancel_l (a x y : string) : (a ++ x)%string = (a ++ y)%string -> x = y.
Proof. induction a as [|c a IH]; cbn; [auto|]. intro H. injection H. exact IH. Qed.

Lemma string_split_at_separator (a c x y : string) :
  (forall ch, In ch (list_ascii_of_string a) -> ch <> "_"%char) ->
  (forall ch, In ch (list_ascii_of_string c) -> ch <> "_"%char) ->
  (a ++ String "_" x)%string = (c ++ String "_" y)%string -> a = c /\ x = y.
Proof.
  revert c. induction a as [|ch a IH]; intros c Ha Hc; destruct c as [|ch' c]; cbn.
  - intro H. injection H. auto.
  - intro H. injection H as <- _. exfalso. apply (Hc "_"%char); [left | ]; reflexivity.
  - intro H. injection H as -> _. exfalso. apply (Ha "_"%char); [left | ]; reflexivity.
  - intro H. injection H as <- H.
    destruct (IH c (fun x Hx => Ha x (or_intror Hx)) (fun x Hx => Hc x (or_intror Hx)) H) as [-> ->].
    auto.
Qed.

Lemma digit_not_underscore (n : N) : ascii_of_N (48 + N.modulo n 10) <> "_"%char.
Proof.
  assert (Hd : (N.modulo n 10 < 10)%N) by (apply N.mod_lt; discriminate).
  destruct (N.modulo n 10) as [|p]; [discriminate|].
  do 9 (destruct p as [p|p|]; try (vm_compute in Hd; discriminate); try discriminate);
    try discriminate; vm_compute in Hd; discriminate.
Qed.

Lemma digits_of_no_underscore (fuel : nat) (n : N) (acc : string) :
  (forall ch, In ch (list_ascii_of_string acc) -> ch <> "_"%char) ->
  forall ch, In ch (list_ascii_of_string (digits_of fuel n acc)) -> ch <> "_"%char.
Proof.
  revert n acc. induction fuel as [|fuel IH]; intros n acc Hacc; cbn [digits_of]; [exact Hacc|].
  assert (H' : forall ch, In ch (list_ascii_of_string (String (ascii_of_N (48 + N.modulo n 10)) acc))
                          -> ch <> "_"%char).
  { intros ch [<-|Hin]; [apply digit_not_underscore | exact (Hacc ch Hin)]. }
  destruct (n <? 10)%N; [exact H' | exact (IH _ _ H')].
Qed.

Lemma num_string_no_underscore (n : Z) :
  forall ch, In ch (list_ascii_of_string (num_string n)) -> ch <> "_"%char.
Proof. apply digits_of_no_underscore. intros ch []. Qed.

Lemma string_of_nat_inj_100 (i j : nat) :
  (i < 100)%nat -> (j < 100)%nat -> string_of_nat i = string_of_nat j -> i = j.
Proof.
  intros Hi Hj H.
  assert (Hall : forallb (fun i => forallb (fun j => Nat.eqb i j
                   || negb (String.eqb (string_of_nat i) (string_of_nat j))) (seq 0 100))
                   (seq 0 100) = true) by (vm_compute; reflexivity).
  rewrite forallb_forall in Hall.
  specialize (Hall i (proj2 (in_seq 100 0 i) (conj (Nat.le_0_l i) Hi))).
  rewrite forallb_forall in Hall.
  specialize (Hall j (proj2 (in_seq 100 0 j) (conj (Nat.le_0_l j) Hj))).
  rewrite H, String.eqb_refl, orb_false_r in Hall. apply Nat.eqb_eq, Hall.
Qed.

Lemma batch_id_inj (u : string) (a b : Z) (i j : nat) :
  (i < 100)%nat -> (j < 100)%nat -> batch_id u a i = batch_id u b j -> i = j.
Proof.
  unfold batch_id. intros Hi Hj H.
  apply string_app_cancel_l, (string_app_cancel_l "_") in H.
  destruct (string_split_at_separator (num_string a) (num_string b) (string_of_nat i)
              (string_of_nat j) (num_string_no_underscore a) (num_string_no_underscore b) H)
    as [_ Hs].
  exact (string_of_nat_inj_100 i j Hi Hj Hs).
Qed.

(** X17. Whatever the body of [POST /documents] holds (even a
    [metadata.user_id] or [metadata.text]), every point the request upserts
    carries the caller's id as [user_id] and the body's [text] as [text]. *)
Theorem storeDocument_payload_owner (w : DocWorld) (u : string) (body : obj) (p : Point) :
  In p (upserted (snd (storeDocument_ctl w u body))) ->
  obj_get "user_id" (pt_payload p) = Some (JString u) /\
  obj_get "text" (pt_payload p) = obj_get "text" body.
Proof.
  intro H. apply upserted_in in H as (pts & H & Hp).
  unfold storeDocument_ctl in H.
  destruct (obj_get "text" body) as [text|] eqn:Et;
    [destruct (truthy (Some text))|]; ev_split H; try discriminate.
  apply storeDocument_upsert in H as (e & ->). destruct Hp as [<-|[]]. cbn [pt_payload].
  unfold single_payload. cbn [own_props].
  match goal with |- context [obj_assign [] ?md] =>
    pose proof (owner_metadata u (JString (to_iso_string (dw_now w 0)))
                  (match obj_get "metadata" body with None => Some (JObject []) | m => m end))
      as [Hn Hu]; cbn zeta in Hn, Hu
  end.
  rewrite !obj_get_set. cbv beta iota delta [String.eqb Ascii.eqb Bool.eqb].
  split; [|reflexivity].
  rewrite obj_assign_get by exact Hn. rewrite Hu. reflexivity.
Qed.

Lemma storeDocument_payload_owner_witness :
  let w := mkDocWorld (fun _ => now0) (Ok tt) (Ok true) (Ok tt) (fun _ => Ok [3%Z; 4%Z])
             (fun _ => Ok []) (fun _ => Ok tt) (fun _ _ _ => Ok []) (Ok tt)
             (fun _ => Ok []) (fun _ _ _ => Ok []) (fun _ => Ok 0%Z) in
  let body := [("text", JString "hello");
               ("metadata", JObject [("user_id", JString "mallory"); ("text", JString "other")])] in
  obj_get "user_id" (pt_payload (hd (mkPoint JNull None []) (upserted (snd (storeDocument_ctl w "alice" body)))))
    = Some (JString "alice") /\
  obj_get "text" (pt_payload (hd (mkPoint JNull None []) (upserted (snd (storeDocument_ctl w "alice" body)))))
    = Some (JString "hello").
Proof.
  cbv zeta.
  match goal with
  | |- obj_get _ (pt_payload (hd _ (upserted (snd (storeDocument_ctl ?w ?u ?b))))) = _ /\ _ =>
      apply (storeDocument_payload_owner w u b)
  end.
  vm_compute. left. reflexivity.
Defined.

(** X18. Every point [POST /documents/batch] upserts carries the caller's
    id as [user_id], whatever each document's metadata says. *)
Theorem storeBatch_payload_owner (w : DocWorld) (u : string) (body : obj) (p : Point) :
  In p (upserted (snd (storeBatchDocuments_ctl w u body))) ->
  obj_get "user_id" (pt_payload p) = Some (JString u).
Proof.
  intro H. apply upserted_in in H as (pts & H & Hp).
  unfold storeBatchDocuments_ctl in H.
  destruct (obj_get "documents" body) as [[| | | |[|d0 ds] |]|]; ev_split H; try discriminate.
  match goal with Hm : fst (dlift (prepare_docs _ _ _ _)) = Ok _ |- _ =>
    cbn [fst dlift] in Hm; rename Hm into E end.
  apply storeBatch_upsert in H as (embs & ->).
  apply batch_points_in in Hp as (d & Hd & _ & ->).
  destruct (prepare_docs_owner _ _ _ _ _ _ E Hd) as (md & -> & Hn & Hu).
  unfold batch_payload. cbn [own_props]. rewrite obj_assign_get by exact Hn. rewrite Hu.
  reflexivity.
Qed.

Lemma storeBatch_payload_owner_witness :
  let w := mkDocWorld (fun _ => now0) (Ok tt) (Ok true) (Ok tt) (fun _ => Ok [3%Z; 4%Z])
             (fun _ => Ok [[3%Z; 4%Z]]) (fun _ => Ok tt) (fun _ _ _ => Ok []) (Ok tt)
             (fun _ => Ok []) (fun _ _ _ => Ok []) (fun _ => Ok 0%Z) in
  let body := [("documents", JArray [JObject [("text", JString "hello");
                 ("metadata", JObject [("user_id", JString "mallory")])]])] in
  obj_get "user_id" (pt_payload (hd (mkPoint JNull None [])
                                   (upserted (snd (storeBatchDocuments_ctl w "alice" body)))))
    = Some (JString "alice").
Proof.
  cbv zeta.
  match goal with
  | |- obj_get _ (pt_payload (hd _ (upserted (snd (storeBatchDocuments_ctl ?w ?u ?b))))) = _ =>
      apply (storeBatch_payload_owner w u b)
  end.
  vm_compute. left. reflexivity.
Defined.

(** X19. The two store paths give [text] opposite precedence: the single
    path's payload [{ ...metadata, text }] always has the given text, while
    the batch path's [{ text, ...metadata }] takes [metadata.text] when the
    metadata has one (the vector is still computed from the document's
    own [text]). *)
Theorem payload_text_precedence (text : json) (t : option json) (o : obj) :
  NoDup (List.map fst o) ->
  obj_get "text" (single_payload text (Some (JObject o))) = Some text /\
  obj_get "text" (batch_payload t (Some (JObject o)))
    = match obj_get "text" o with Some v => Some v | None => t end.
Proof.
  intro Hn. split.
  - unfold single_payload. rewrite obj_get_set. reflexivity.
  - unfold batch_payload. cbn [own_props]. rewrite obj_assign_get by exact Hn.
    destruct (obj_get "text" o); [reflexivity|]. destruct t; reflexivity.
Qed.

Lemma payload_text_precedence_witness :
  obj_get "text" (single_payload (JString "a") (Some (JObject [("text", JString "b")])))
    = Some (JString "a") /\
  obj_get "text" (batch_payload (Some (JString "a")) (Some (JObject [("text", JString "b")])))
    = Some (JString "b").
Proof.
  apply (payload_text_precedence (JString "a") (Some (JString "a")) [("text", JString "b")]).
  repeat constructor. intros [].
Defined.

(** X20. [POST /documents/batch] whose [documents] is not an array, is an
    empty array, or has more than 100 entries is answered 400 and makes no
    Qdrant or embedding call. *)
Theorem storeBatch_rejects_size (w : DocWorld) (u : string) (body : obj) :
  (forall l, obj_get "documents" body = Some (JArray l) -> l = [] \/ (100 < List.length l)%nat) ->
  exists msg, storeBatchDocuments_ctl w u body = (Ok tt, [DRespond 400 [("error", JString msg)]]).
Proof.
  intro H. unfold storeBatchDocuments_ctl.
  destruct (obj_get "documents" body) as [[| | | |[|d0 ds] |]|];
    try (eexists; reflexivity).
  destruct (H _ eq_refl) as [Hl|Hl]; [discriminate|].
  destruct (Nat.ltb_spec 100 (List.length (d0 :: ds))); [|lia].
  eexists; reflexivity.
Qed.

Lemma storeBatch_rejects_size_witness :
  storeBatchDocuments_ctl
    (mkDocWorld (fun _ => now0) (Ok tt) (Ok true) (Ok tt) (fun _ => Ok [3%Z; 4%Z])
       (fun _ => Ok []) (fun _ => Ok tt) (fun _ _ _ => Ok []) (Ok tt)
       (fun _ => Ok []) (fun _ _ _ => Ok []) (fun _ => Ok 0%Z))
    "alice" [("documents", JArray (repeat JNull 101))]
  = (Ok tt, [DRespond 400 [("error", JString "maximum 100 documents per batch")]]).
Proof.
  destruct (storeBatch_rejects_size
              (mkDocWorld (fun _ => now0) (Ok tt) (Ok true) (Ok tt) (fun _ => Ok [3%Z; 4%Z])
                 (fun _ => Ok []) (fun _ => Ok tt) (fun _ _ _ => Ok []) (Ok tt)
                 (fun _ => Ok []) (fun _ _ _ => Ok []) (fun _ => Ok 0%Z))
              "alice" [("documents", JArray (repeat JNull 101))]) as [msg H].
  - intros l Hl. right. injection Hl as <-. apply Nat.ltb_lt. vm_compute. reflexivity.
  - vm_compute. reflexivity.
Defined.

(** X21. In a batch of at most 100 documents none of which has a truthy
    [id], the generated ids [`${user.id}_${Date.now()}_${index}`] are
    pairwise distinct, however the clock moves between documents. *)
Theorem batch_ids_distinct (u : string) (now : nat -> Z) (docs : list json) (ps : list BatchDoc) :
  prepare_docs u now 0 docs = Ok ps -> (List.length docs <= 100)%nat ->
  forallb (fun d => match member d "id" with Ok v => negb (truthy v) | Err _ => false end) docs = true ->
  NoDup (List.map bd_id ps).
Proof.
  intros H Hl Hf. rewrite (prepare_docs_ids u now 0 docs ps H Hf).
  apply NoDup_map_NoDup_ForallPairs; [|apply seq_NoDup].
  intros i j Hi Hj E. apply in_seq in Hi, Hj. cbv beta in E.
  assert (Es : batch_id u (now i) i = batch_id u (now j) j) by congruence.
  apply (batch_id_inj u (now i) (now j)); [lia | lia | exact Es].
Qed.

Lemma batch_ids_distinct_witness :
  exists ps, prepare_docs "alice" (fun i => (now0 + Z.of_nat i)%Z) 0
               [JObject [("text", JString "a")]; JObject [("id", JString ""); ("text", JString "b")];
                JString "c"] = Ok ps /\ NoDup (List.map bd_id ps).
Proof.
  destruct (prepare_docs "alice" (fun i => (now0 + Z.of_nat i)%Z) 0
              [JObject [("text", JString "a")]; JObject [("id", JString ""); ("text", JString "b")];
               JString "c"]) as [ps|e] eqn:E.
  - exists ps. split; [reflexivity|].
    apply (batch_ids_distinct _ _ _ ps E); [cbn; lia | vm_compute; reflexivity].
  - vm_compute in E. discriminate.
Defined.





(** X24. [POST /documents/search] searches every user's documents exactly
    when the body's [global] is truthy (so also for the string "false"),
    and otherwise only with the caller's [user_id] filter. *)
Theorem searchDocuments_scope (w : DocWorld) (u : string) (body : obj) (f : option Filter) :
  In f (search_filters (snd (searchDocuments_ctl w u body))) ->
  f = if truthy (obj_get "global" body) then None else Some (user_filter u).
Proof.
  assert (Hs : forall q l flt x, In x (snd (search w q l flt)) ->
                 forall v l' f', x = DSearch v l' f' -> f' = flt).
  { intros q l flt x H v l' f' ->. unfold search in H. ev_split H; try discriminate.
    - apply ensureCollection_events in H as [H|H]; discriminate.
    - congruence. }
  assert (Hf : forall evs, (forall x, In x evs -> forall v l' f', x = DSearch v l' f' ->
                              f' = if truthy (obj_get "global" body) then None
                                   else Some (user_filter u)) ->
                 In f (search_filters evs) ->
                 f = if truthy (obj_get "global" body) then None else Some (user_filter u)).
  { induction evs as [|e evs IH]; [intros _ []|]. intros Hx.
    assert (IH' : In f (search_filters evs) ->
                  f = if truthy (obj_get "global" body) then None else Some (user_filter u))
      by (apply IH; intros x Hin; apply Hx; right; exact Hin).
    destruct e; cbn [search_filters]; try exact IH'.
    intros [<-|H]; [exact (Hx _ (or_introl eq_refl) _ _ _ eq_refl) | exact (IH' H)]. }
  apply Hf. intros x H v l' f' ->. unfold searchDocuments_ctl in H.
  assert (Eg : truthy (Some match obj_get "global" body with None => JBool false | Some g => g end)
               = truthy (obj_get "global" body)) by (destruct (obj_get "global" body); reflexivity).
  rewrite Eg in H. destruct (truthy (obj_get "global" body)).
  all: destruct (obj_get "query" body) as [q|]; [destruct (truthy (Some q))|]; ev_split H;
    try discriminate; try unfold searchByUser in H; exact (Hs _ _ _ _ H _ _ _ eq_refl).
Qed.

Lemma searchDocuments_scope_witness :
  None = (if truthy (Some (JString "false")) then None else Some (user_filter "alice")).
Proof.
  apply (searchDocuments_scope
           (mkDocWorld (fun _ => now0) (Ok tt) (Ok true) (Ok tt) (fun _ => Ok [3%Z; 4%Z])
              (fun _ => Ok []) (fun _ => Ok tt) (fun _ _ _ => Ok []) (Ok tt)
              (fun _ => Ok []) (fun _ _ _ => Ok []) (fun _ => Ok 0%Z))
           "alice" [("query", JString "secrets"); ("global", JString "false")] None).
  vm_compute. left. reflexivity.
Defined.

(** X25. Once the Qdrant service is built, [DELETE /documents] deletes
    with the caller's [user_id] filter and nothing else, while
    [DELETE /documents/:id] deletes the named point with no check of whose
    it is; a failed deletion is answered 500. *)
Theorem delete_endpoints (w : DocWorld) (u id : string) :
  dw_qdrant_init w = Ok tt ->
  (deleteAllUserDocuments_ctl w u =
  (Ok tt, [DDeleteByFilter (user_filter u);
           match dw_delete w with
           | Ok _ => DRespond 200 [("message", JString "all documents deleted successfully")]
           | Err e => DRespond 500 [("error", JString (message_or e "failed to delete documents"))]
           end])) /\
  (deleteDocument_ctl w id =
  (Ok tt, [DDeletePoints [JString id];
           match dw_delete w with
           | Ok _ => DRespond 200 [("message", JString "document deleted successfully");
                                   ("id", JString id)]
           | Err e => DRespond 500 [("error", JString (message_or e "failed to delete document"))]
           end])).
Proof.
  intro Hi. unfold deleteAllUserDocuments_ctl, deleteDocument_ctl, deleteByUser, deleteDocument.
  rewrite Hi. destruct (dw_delete w) as [[]|e]; split; reflexivity.
Qed.

Lemma delete_endpoints_witness :
  let w := mkDocWorld (fun _ => now0) (Ok tt) (Ok true) (Ok tt) (fun _ => Ok [3%Z; 4%Z])
             (fun _ => Ok []) (fun _ => Ok tt) (fun _ _ _ => Ok []) (Err "forbidden")
             (fun _ => Ok []) (fun _ _ _ => Ok []) (fun _ => Ok 0%Z) in
  (deleteAllUserDocuments_ctl w "alice" =
   (Ok tt, [DDeleteByFilter (user_filter "alice");
            DRespond 500 [("error", JString "forbidden")]])) /\
  (deleteDocument_ctl w "bob_1" =
   (Ok tt, [DDeletePoints [JString "bob_1"]; DRespond 500 [("error", JString "forbidden")]])).
Proof. cbv zeta. apply delete_endpoints. reflexivity. Defined.
